(** * The chat client of [src/app/page.tsx]: orchestration layer

    A shallow embedding of the [ChatApp] component: its React state, the
    three handlers [handleNewChat], [handleDeleteChat] and
    [handleSendMessage], the two snapshot callbacks and the two
    subscription effects.  Asynchronous handlers are trees of operations
    (a freer monad with exceptions); the document store, the clock and the
    completion endpoint answer through an environment. *)

From Stdlib Require Import NArith ZArith List String Ascii Bool Lia.
From Stdlib Require Import Floats.SpecFloat.
From stdpp Require Import base option list pretty.

Set Default Proof Using "Type".
Set Warnings "-register-all".

(** ** JavaScript strings and values *)

Module JS.

(** A JavaScript string is a sequence of UTF-16 code units. *)
Definition jsstring := list N.

(** An ASCII literal of the source, as code units. *)
Definition lit (s : string) : jsstring :=
  map N_of_ascii (list_ascii_of_string s).

(** ECMAScript [WhiteSpace]: TAB, VT, FF, SP, NBSP, ZWNBSP and the
    Unicode space separators. *)
Definition isWhiteSpace (c : N) : bool :=
  (c =? 9)%N || (c =? 11)%N || (c =? 12)%N || (c =? 32)%N || (c =? 160)%N
  || (c =? 5760)%N || ((8192 <=? c)%N && (c <=? 8202)%N)
  || (c =? 8239)%N || (c =? 8287)%N || (c =? 12288)%N || (c =? 65279)%N.

(** ECMAScript [LineTerminator]: LF, CR, LS, PS. *)
Definition isLineTerminator (c : N) : bool :=
  (c =? 10)%N || (c =? 13)%N || (c =? 8232)%N || (c =? 8233)%N.

(** The code units [String.prototype.trim] strips. *)
Definition isTrimmed (c : N) : bool := isWhiteSpace c || isLineTerminator c.

Fixpoint trimStart (s : jsstring) : jsstring :=
  match s with
  | c :: s' => if isTrimmed c then trimStart s' else s
  | [] => []
  end.

Definition trimEnd (s : jsstring) : jsstring := rev (trimStart (rev s)).

(** [s.trim()] *)
Definition trim (s : jsstring) : jsstring := trimEnd (trimStart s).

(** A string is falsy exactly when it is empty. *)
Definition truthy_string (s : jsstring) : bool :=
  match s with [] => false | _ => true end.

(** [sep]-separated concatenation, as [Array.prototype.join]. *)
Fixpoint join (sep : jsstring) (l : list jsstring) : jsstring :=
  match l with
  | [] => []
  | [s] => s
  | s :: l' => s ++ sep ++ join sep l'
  end.

(** The values a parsed JSON document and property reads on it can
    produce.  Numbers are IEEE 754 binary64, as [spec_float].  An object
    lists its own properties in insertion order. *)
Inductive value :=
| JUndefined
| JNull
| JBool (b : bool)
| JNum (x : spec_float)
| JStr (s : jsstring)
| JArr (items : list value)
| JObj (fields : list (jsstring * value)).

(** What a [throw] carries: an instance of [Error] with its [message], or
    some other thrown value. *)
Inductive exn :=
| ErrorObj (message : jsstring)
| NotAnError.

(** [ToBoolean] *)
Definition truthy (v : value) : bool :=
  match v with
  | JUndefined | JNull => false
  | JBool b => b
  | JNum (S754_zero _) | JNum S754_nan => false
  | JNum _ => true
  | JStr s => truthy_string s
  | JArr _ | JObj _ => true
  end.

(** The own property [key] of an object: with a repeated key the last
    binding is the one that stays. *)
Fixpoint own (fields : list (jsstring * value)) (key : jsstring) : option value :=
  match fields with
  | [] => None
  | (k, v) :: fields' =>
      match own fields' key with
      | Some v' => Some v'
      | None => if decide (k = key) then Some v else None
      end
  end.

(** The parts of the JavaScript engine the component calls and this
    development does not spell out: number/string conversions,
    [JSON.stringify], and the message of the [TypeError] raised by a
    property read on [null] or [undefined]. *)
Class Engine := {
  StringToNumber : jsstring -> spec_float;
  NumberToString : spec_float -> jsstring;
  JSON_stringify : value -> jsstring;
  TypeError_message : value -> jsstring -> jsstring
}.

Section WithEngine.
Context {E : Engine}.

(** [ToString] *)
Fixpoint ToString (v : value) : jsstring :=
  match v with
  | JUndefined => lit "undefined"
  | JNull => lit "null"
  | JBool true => lit "true"
  | JBool false => lit "false"
  | JNum x => NumberToString x
  | JStr s => s
  | JArr items =>
      join (lit ",")
        (map (fun i => match i with
                       | JUndefined | JNull => []
                       | _ => ToString i
                       end) items)
  | JObj _ => lit "[object Object]"
  end.

(** [v > 0]: the operand is converted with [ToNumber] (arrays and objects
    through their string form) and compared as a number; [NaN] compares
    false. *)
Definition gt_zero (v : value) : bool :=
  match v with
  | JUndefined | JNull => false
  | JBool b => b
  | JNum x => SFltb (S754_zero false) x
  | JStr s => SFltb (S754_zero false) (StringToNumber s)
  | JArr _ | JObj _ => SFltb (S754_zero false) (StringToNumber (ToString v))
  end.

(** [v.key] for a property name that arrays, strings, numbers and
    booleans do not define ([candidates], [content], [parts], [text]). *)
Definition member (v : value) (key : jsstring) : exn + value :=
  match v with
  | JUndefined | JNull => inl (ErrorObj (TypeError_message v key))
  | JObj fields => inr (default JUndefined (own fields key))
  | JBool _ | JNum _ | JStr _ | JArr _ => inr JUndefined
  end.

(** [v[0]] *)
Definition item0 (v : value) : exn + value :=
  match v with
  | JUndefined | JNull => inl (ErrorObj (TypeError_message v (lit "0")))
  | JArr items => inr (default JUndefined (head items))
  | JStr s => inr (match s with c :: _ => JStr [c] | [] => JUndefined end)
  | JObj fields => inr (default JUndefined (own fields (lit "0")))
  | JBool _ | JNum _ => inr JUndefined
  end.

(** [v.length > 0] *)
Definition length_gt_zero (v : value) : exn + bool :=
  match v with
  | JUndefined | JNull => inl (ErrorObj (TypeError_message v (lit "length")))
  | JArr items => inr (0 <? length items)
  | JStr s => inr (0 <? length s)
  | JObj fields => inr (gt_zero (default JUndefined (own fields (lit "length"))))
  | JBool _ | JNum _ => inr false
  end.

End WithEngine.

End JS.
Import JS.

(** ** Data model *)

(** [Timestamp]: a point in time, in the clock's unit. *)
Definition Timestamp := N.

(** The [role] of a message, ['user' | 'model']. *)
Inductive Role := role_user | role_model.

Definition role_string (r : Role) : jsstring :=
  match r with
  | role_user => lit "user"
  | role_model => lit "model"
  end.

(** [Omit<Message, 'id'>]: the fields of a message document.  The
    interface declares [text: string]; the value the component writes
    comes from an untyped response, so the field holds any [value]. *)
Record MessageData := {
  text : value;
  role : Role;
  timestamp : Timestamp
}.

Record Message := {
  m_id : jsstring;
  m_data : MessageData
}.

(** The fields of a chat document. *)
Record ChatData := {
  title : jsstring;
  createdAt : Timestamp
}.

Record Chat := {
  c_id : jsstring;
  c_data : ChatData
}.

Record FirebaseUser := {
  uid : jsstring;
  isAnonymous : bool
}.

(** The [useState] cells of [ChatApp]. *)
Record State := {
  user : option FirebaseUser;
  chats : list Chat;
  activeChatId : option jsstring;
  messages : list Message;
  input : jsstring;
  isLoading : bool;
  isAuthReady : bool
}.

Definition set_chats (v : list Chat) (s : State) : State :=
  {| user := user s; chats := v; activeChatId := activeChatId s;
     messages := messages s; input := input s; isLoading := isLoading s;
     isAuthReady := isAuthReady s |}.

Definition set_activeChatId (v : option jsstring) (s : State) : State :=
  {| user := user s; chats := chats s; activeChatId := v;
     messages := messages s; input := input s; isLoading := isLoading s;
     isAuthReady := isAuthReady s |}.

Definition set_messages (v : list Message) (s : State) : State :=
  {| user := user s; chats := chats s; activeChatId := activeChatId s;
     messages := v; input := input s; isLoading := isLoading s;
     isAuthReady := isAuthReady s |}.

Definition set_input (v : jsstring) (s : State) : State :=
  {| user := user s; chats := chats s; activeChatId := activeChatId s;
     messages := messages s; input := v; isLoading := isLoading s;
     isAuthReady := isAuthReady s |}.

Definition set_isLoading (v : bool) (s : State) : State :=
  {| user := user s; chats := chats s; activeChatId := activeChatId s;
     messages := messages s; input := input s; isLoading := v;
     isAuthReady := isAuthReady s |}.

(** [!activeChatId]: no id, or the empty string. *)
Definition no_chat (a : option jsstring) : bool :=
  match a with
  | Some i => negb (truthy_string i)
  | None => true
  end.

(** ** Operations of an asynchronous handler *)

(** A document handed to [addDoc]. *)
Inductive DocData :=
| ChatDoc (d : ChatData)
| MessageDoc (d : MessageData).

(** The second argument of [fetch]. *)
Record RequestInit := {
  method : jsstring;
  headers : list (jsstring * jsstring);
  body : jsstring
}.

(** What the handler reads of a [Response]: its [status], and how
    [response.json()] settles. *)
Record Response := {
  status : N;
  json : exn + value
}.

(** [response.ok]: the status is in the range 200-299. *)
Definition ok (response : Response) : bool :=
  (200 <=? status response)%N && (status response <=? 299)%N.

(** The operations a handler performs on its surroundings, indexed by
    the type of their answer.  A promise settles with [inr] (fulfilled)
    or [inl] (rejected). *)
Inductive Op : Type -> Type :=
| SetChats (v : list Chat) : Op unit
| SetActiveChatId (v : option jsstring) : Op unit
| SetMessages (v : list Message) : Op unit
| SetInput (v : jsstring) : Op unit
| SetIsLoading (v : bool) : Op unit
| TimestampNow : Op Timestamp
| AddDoc (path : jsstring) (data : DocData) : Op (exn + jsstring)
| DeleteDoc (path : jsstring) : Op (exn + unit)
| Fetch (url : jsstring) (init : RequestInit) : Op (exn + Response)
| ConsoleError (label : jsstring) (error : exn) : Op unit.

(** The body of an [async] function: it returns, throws, or performs an
    operation and goes on with its answer. *)
Inductive Proc (A : Type) : Type :=
| Ret (a : A)
| Throw (e : exn)
| Do {X : Type} (op : Op X) (k : X -> Proc A).
Arguments Ret {A} a.
Arguments Throw {A} e.
Arguments Do {A X} op k.

Fixpoint bind {A B} (p : Proc A) (f : A -> Proc B) : Proc B :=
  match p with
  | Ret a => f a
  | Throw e => Throw e
  | Do op k => Do op (fun x => bind (k x) f)
  end.

#[export] Instance Proc_ret : MRet Proc := @Ret.
#[export] Instance Proc_bind : MBind Proc := fun A B f p => bind p f.

(** [try { p } catch (error) { h error }] *)
Fixpoint try_catch {A} (p : Proc A) (h : exn -> Proc A) : Proc A :=
  match p with
  | Ret a => Ret a
  | Throw e => h e
  | Do op k => Do op (fun x => try_catch (k x) h)
  end.

(** [try { p } finally { f }] *)
Fixpoint try_finally {A} (p : Proc A) (f : Proc unit) : Proc A :=
  match p with
  | Ret a => bind f (fun _ => Ret a)
  | Throw e => bind f (fun _ => Throw e)
  | Do op k => Do op (fun x => try_finally (k x) f)
  end.

(** An operation whose answer is not awaited for failure. *)
Definition perform_op {X} (op : Op X) : Proc X := Do op Ret.

(** [await p]: go on with the value of a fulfilled promise, throw the
    reason of a rejected one. *)
Definition await {X} (op : Op (exn + X)) : Proc X :=
  Do op (fun r => match r with inl e => Throw e | inr x => Ret x end).

(** A synchronous expression that may throw. *)
Definition eval {X} (r : exn + X) : Proc X :=
  match r with inl e => Throw e | inr x => Ret x end.

(** Sequencing of synchronous expressions that may throw. *)
#[export] Instance throwing_bind : MBind (sum exn) :=
  fun A B f r => match r with inl e => inl e | inr a => f a end.

(** ** The component *)

Section ChatApp.
Context {E : Engine}.

(** The global [__app_id], when the execution environment defines it. *)
Variable __app_id : option jsstring.

Definition appId : jsstring := default (lit "t3-chat-clone") __app_id.

Definition chatsCollectionPath (u : FirebaseUser) : jsstring :=
  lit "/artifacts/" ++ appId ++ lit "/users/" ++ uid u ++ lit "/chats".

Definition chatDocPath (u : FirebaseUser) (chatId : jsstring) : jsstring :=
  lit "/artifacts/" ++ appId ++ lit "/users/" ++ uid u ++ lit "/chats/" ++ chatId.

Definition messagesCollectionPath (u : FirebaseUser) (chatId : jsstring) : jsstring :=
  lit "/artifacts/" ++ appId ++ lit "/users/" ++ uid u ++ lit "/chats/" ++ chatId
    ++ lit "/messages".

(** [handleNewChat], lines 127-143.  [c] is the state of the render the
    callback closes over. *)
Definition handleNewChat (c : State) : Proc unit :=
  match user c with
  | None => Ret tt
  | Some u =>
      perform_op (SetIsLoading true);;
      try_finally
        (try_catch
           (now ← perform_op TimestampNow;
            let newChat := {| title := lit "New Chat"; createdAt := now |} in
            docRef_id ← await (AddDoc (chatsCollectionPath u) (ChatDoc newChat));
            perform_op (SetActiveChatId (Some docRef_id)))
           (fun error =>
              perform_op (ConsoleError (lit "Error creating new chat:") error)))
        (perform_op (SetIsLoading false))
  end.

(** [l[0].id]; the read of [id] throws when [l[0]] is [undefined]. *)
Definition first_id (l : list Chat) : exn + jsstring :=
  match l !! 0 with
  | Some ch => inr (c_id ch)
  | None => inl (ErrorObj (TypeError_message JUndefined (lit "id")))
  end.

(** The callback of the chat-list subscription, lines 153-166.  The call
    of [handleNewChat] is not awaited; it is the callback's last
    statement and settles without rejecting, so it is sequenced here. *)
Definition onChatsSnapshot (c : State) (docs : list (jsstring * ChatData)) : Proc unit :=
  let fetchedChats := map (fun doc => {| c_id := doc.1; c_data := doc.2 |}) docs in
  perform_op (SetChats fetchedChats);;
  if no_chat (activeChatId c) && (0 <? length fetchedChats) then
    i ← eval (first_id fetchedChats);
    perform_op (SetActiveChatId (Some i))
  else if length docs =? 0 then
    handleNewChat c
  else Ret tt.

(** The callback of the message subscription, lines 181-187. *)
Definition onMessagesSnapshot (docs : list (jsstring * MessageData)) : Proc unit :=
  let fetchedMessages := map (fun doc => {| m_id := doc.1; m_data := doc.2 |}) docs in
  perform_op (SetMessages fetchedMessages).

(** [handleDeleteChat], lines 194-209. *)
Definition handleDeleteChat (c : State) (chatId : jsstring) : Proc unit :=
  match user c with
  | None => Ret tt
  | Some u =>
      try_catch
        (await (DeleteDoc (chatDocPath u chatId));;
         if decide (activeChatId c = Some chatId) then
           let remainingChats := filter (fun ch => c_id ch ≠ chatId) (chats c) in
           if 0 <? length remainingChats then
             i ← eval (first_id remainingChats);
             perform_op (SetActiveChatId (Some i))
           else perform_op (SetActiveChatId None)
         else Ret tt)
        (fun error =>
           perform_op (ConsoleError (lit "Error deleting chat:") error))
  end.

(** The guard of [handleSendMessage], line 212:
    [!input.trim() || !user || !activeChatId || isLoading]. *)
Definition send_rejected (c : State) : bool :=
  negb (truthy_string (trim (input c)))
  || bool_decide (user c = None)
  || no_chat (activeChatId c)
  || isLoading c.

(** One element of [chatHistory]: [{ role, parts: [{ text }] }]. *)
Definition content (r : Role) (t : value) : value :=
  JObj [(lit "role", JStr (role_string r));
        (lit "parts", JArr [JObj [(lit "text", t)]])].

Definition fallbackResponse : jsstring :=
  lit "Sorry, I couldn't generate a response.".

(** Lines 252-257: the fallback, replaced by
    [result.candidates[0].content.parts[0].text] when the guard holds.
    [&&] evaluates left to right and stops at the first falsy operand; a
    property read on [null] or [undefined] throws. *)
Definition modelResponse_of (result : value) : exn + value :=
  candidates ← member result (lit "candidates");
  if negb (truthy candidates) then inr (JStr fallbackResponse) else
  nonempty ← length_gt_zero candidates;
  if negb nonempty then inr (JStr fallbackResponse) else
  candidate ← item0 candidates;
  content_ ← member candidate (lit "content");
  if negb (truthy content_) then inr (JStr fallbackResponse) else
  parts ← member content_ (lit "parts");
  if negb (truthy parts) then inr (JStr fallbackResponse) else
  nonempty' ← length_gt_zero parts;
  if negb nonempty' then inr (JStr fallbackResponse) else
  part ← item0 parts;
  member part (lit "text").

Definition apiKey : jsstring := [].

Definition apiUrl : jsstring :=
  lit "https://generativelanguage.googleapis.com/v1beta/models/gemini-2.0-flash:generateContent?key="
    ++ apiKey.

(** [error instanceof Error ? error.message : "An unknown error occurred."] *)
Definition error_text (error : exn) : jsstring :=
  match error with
  | ErrorObj message => message
  | NotAnError => lit "An unknown error occurred."
  end.

(** The [try] block of [handleSendMessage], lines 229-266. *)
Definition send_try (c : State) (path userInput : jsstring) : Proc unit :=
  let chatHistory :=
    map (fun m => content (role (m_data m)) (text (m_data m))) (messages c)
      ++ [content role_user (JStr userInput)] in
  let payload := JObj [(lit "contents", JArr chatHistory)] in
  response ← await (Fetch apiUrl
    {| method := lit "POST";
       headers := [(lit "Content-Type", lit "application/json")];
       body := JSON_stringify payload |});
  (if negb (ok response) then
     Throw (ErrorObj (lit "API call failed with status: "
                        ++ lit (pretty (status response))))
   else Ret tt);;
  result ← eval (json response);
  modelResponse ← eval (modelResponse_of result);
  now ← perform_op TimestampNow;
  let modelMessage :=
    {| text := modelResponse; role := role_model; timestamp := now |} in
  await (AddDoc path (MessageDoc modelMessage));;
  Ret tt.

(** Its [catch] block, lines 267-274. *)
Definition send_catch (path : jsstring) (error : exn) : Proc unit :=
  perform_op (ConsoleError
    (lit "Error calling Gemini API or saving message:") error);;
  now ← perform_op TimestampNow;
  let errorMessage :=
    {| text := JStr (lit "Error: " ++ error_text error);
       role := role_model; timestamp := now |} in
  await (AddDoc path (MessageDoc errorMessage));;
  Ret tt.

(** [handleSendMessage], lines 211-278. *)
Definition handleSendMessage (c : State) : Proc unit :=
  if send_rejected c then Ret tt else
  match user c, activeChatId c with
  | Some u, Some chatId =>
      let userInput := trim (input c) in
      perform_op (SetInput []);;
      perform_op (SetIsLoading true);;
      let path := messagesCollectionPath u chatId in
      now ← perform_op TimestampNow;
      let userMessage :=
        {| text := JStr userInput; role := role_user; timestamp := now |} in
      await (AddDoc path (MessageDoc userMessage));;
      try_finally
        (try_catch (send_try c path userInput) (send_catch path))
        (perform_op (SetIsLoading false))
  | _, _ => Ret tt
  end.

End ChatApp.

(** ** Running a handler against its surroundings *)

(** What leaves the component: store writes, the completion request and
    log lines. *)
Inductive Request :=
| ReqAddDoc (path : jsstring) (data : DocData)
| ReqDeleteDoc (path : jsstring)
| ReqFetch (url : jsstring) (init : RequestInit)
| ReqLog (label : jsstring) (error : exn).

(** The document store: the committed documents, each under its document
    path, in commit order. *)
Definition Store := list (jsstring * DocData).

(** The documents of the collection at [path] are those stored at
    [path/<id>]. *)
Definition doc_path (path id : jsstring) : jsstring := path ++ lit "/" ++ id.

(** The surroundings answer each clock read, store write and completion
    request; the [n]-th request of a kind gets the [n]-th answer. *)
Record Env := {
  clock : nat -> Timestamp;
  addDoc_settles : nat -> exn + jsstring;
  deleteDoc_settles : nat -> exn + unit;
  fetch_settles : nat -> exn + Response
}.

(** The React state, the store, what has been requested so far (each
    request with the state the setters had been handed when it was
    issued, which the page shows from the next render on; oldest
    first), and how many answers of each kind were consumed. *)
Record World := {
  ui : State;
  store : Store;
  trace : list (State * Request);
  nows : nat;
  adds : nat;
  deletes : nat;
  fetches : nat
}.

Definition with_ui (f : State -> State) (w : World) : World :=
  {| ui := f (ui w); store := store w; trace := trace w; nows := nows w;
     adds := adds w; deletes := deletes w; fetches := fetches w |}.

Definition issue (r : Request) (w : World) : World :=
  {| ui := ui w; store := store w; trace := trace w ++ [(ui w, r)];
     nows := nows w; adds := adds w; deletes := deletes w;
     fetches := fetches w |}.

Definition read_clock (w : World) : World :=
  {| ui := ui w; store := store w; trace := trace w; nows := S (nows w);
     adds := adds w; deletes := deletes w; fetches := fetches w |}.

Definition settle_add (path : jsstring) (data : DocData)
    (r : exn + jsstring) (w : World) : World :=
  {| ui := ui w;
     store := match r with
              | inr id => store w ++ [(doc_path path id, data)]
              | inl _ => store w
              end;
     trace := trace w; nows := nows w; adds := S (adds w);
     deletes := deletes w; fetches := fetches w |}.

Definition settle_delete (path : jsstring) (r : exn + unit) (w : World) : World :=
  {| ui := ui w;
     store := match r with
              | inr _ => filter (fun d => d.1 ≠ path) (store w)
              | inl _ => store w
              end;
     trace := trace w; nows := nows w; adds := adds w;
     deletes := S (deletes w); fetches := fetches w |}.

Definition settle_fetch (w : World) : World :=
  {| ui := ui w; store := store w; trace := trace w; nows := nows w;
     adds := adds w; deletes := deletes w; fetches := S (fetches w) |}.

(** One operation: its effect on the world and its answer. *)
Definition perform {X} (op : Op X) (env : Env) (w : World) : World * X :=
  match op in Op X return World * X with
  | SetChats v => (with_ui (set_chats v) w, tt)
  | SetActiveChatId v => (with_ui (set_activeChatId v) w, tt)
  | SetMessages v => (with_ui (set_messages v) w, tt)
  | SetInput v => (with_ui (set_input v) w, tt)
  | SetIsLoading v => (with_ui (set_isLoading v) w, tt)
  | TimestampNow => (read_clock w, clock env (nows w))
  | AddDoc path data =>
      let r := addDoc_settles env (adds w) in
      (settle_add path data r (issue (ReqAddDoc path data) w), r)
  | DeleteDoc path =>
      let r := deleteDoc_settles env (deletes w) in
      (settle_delete path r (issue (ReqDeleteDoc path) w), r)
  | Fetch url init =>
      (settle_fetch (issue (ReqFetch url init) w), fetch_settles env (fetches w))
  | ConsoleError label error => (issue (ReqLog label error) w, tt)
  end.

(** A handler run to its end: the final world, and whether the [async]
    function fulfilled ([inr]) or rejected ([inl]). *)
Fixpoint run {A} (p : Proc A) (env : Env) (w : World) : World * (exn + A) :=
  match p with
  | Ret a => (w, inr a)
  | Throw e => (w, inl e)
  | Do op k => let '(w', x) := perform op env w in run (k x) env w'
  end.

(** The operations that suspend the handler until a promise settles. *)
Definition suspends {X} (op : Op X) : bool :=
  match op with
  | AddDoc _ _ | DeleteDoc _ | Fetch _ _ => true
  | _ => false
  end.

(** A handler after its synchronous prefix: finished, or waiting on an
    operation with the rest of its body. *)
Inductive Suspended (A : Type) : Type :=
| Finished (r : exn + A)
| Awaiting {X : Type} (op : Op X) (k : X -> Proc A).
Arguments Finished {A} r.
Arguments Awaiting {A X} op k.

(** Run a handler up to its first [await]. *)
Fixpoint start {A} (p : Proc A) (env : Env) (w : World) : World * Suspended A :=
  match p with
  | Ret a => (w, Finished (inr a))
  | Throw e => (w, Finished (inl e))
  | Do op k =>
      if suspends op then (w, Awaiting op k)
      else let '(w', x) := perform op env w in start (k x) env w'
  end.

(** Go on once the awaited promise settles. *)
Definition resume {A} (s : Suspended A) (env : Env) (w : World) : World * (exn + A) :=
  match s with
  | Finished r => (w, r)
  | Awaiting op k => run (Do op k) env w
  end.

(** The requests issued between two worlds of one run. *)
Definition issued_since (w w' : World) : list (State * Request) :=
  drop (length (trace w)) (trace w').

(** Let the awaited promise settle and run the handler up to its next
    [await]. *)
Definition advance {A} (s : Suspended A) (env : Env) (w : World) : World * Suspended A :=
  match s with
  | Finished r => (w, Finished r)
  | Awaiting op k => let '(w', x) := perform op env w in start (k x) env w'
  end.

(** What an operation sends out of the component, if anything. *)
Definition request_of {X} (op : Op X) : option Request :=
  match op with
  | AddDoc path data => Some (ReqAddDoc path data)
  | DeleteDoc path => Some (ReqDeleteDoc path)
  | Fetch url init => Some (ReqFetch url init)
  | ConsoleError label error => Some (ReqLog label error)
  | _ => None
  end.

(** What the page shows while a handler runs.  A [useState] setter only
    queues its update: React renders the new state once the handler
    gives up control, at an [await] or at its end, so within one
    synchronous stretch the state on the page is that of the last
    render.  [exposed p env shown w] lists the requests of [p], each
    with the state on the page at the moment it is issued; [shown] is
    the state of the last render, [ui w] that state with the queued
    updates applied. *)
Fixpoint exposed {A} (p : Proc A) (env : Env) (shown : State) (w : World)
    : list (State * Request) :=
  match p with
  | Ret _ | Throw _ => []
  | Do op k =>
      let '(w', x) := perform op env w in
      let later := exposed (k x) env (if suspends op then ui w else shown) w' in
      match request_of op with
      | Some r => (shown, r) :: later
      | None => later
      end
  end.

(** The handlers that never call [setInput]. *)
Definition sets_input {X} (op : Op X) : bool :=
  match op with
  | SetInput _ => true
  | _ => false
  end.

Fixpoint leaves_input {A} (p : Proc A) : Prop :=
  match p with
  | Ret _ | Throw _ => True
  | Do op k => sets_input op = false /\ forall x, leaves_input (k x)
  end.

(** ** Subscriptions and effects *)

(** The two queries the component listens to:
    [query(collection(db, path), orderBy("createdAt", "desc"))] and
    [query(collection(db, path), orderBy("timestamp", "asc"))]. *)
Inductive Query :=
| ChatsQuery (path : jsstring)
| MessagesQuery (path : jsstring).

#[export] Instance FirebaseUser_eq_dec : EqDecision FirebaseUser.
Proof. solve_decision. Defined.

(** The component at rest: its world, the snapshot listeners attached to
    the store (each under the handle [onSnapshot] returned for it), and
    the cleanup each effect returned on its last run ([unsubscribe] of a
    handle, or nothing). *)
Record Runtime := {
  world : World;
  listeners : list (nat * Query);
  next_handle : nat;
  chats_cleanup : option nat;
  messages_cleanup : option nat
}.

Definition with_world (w : World) (r : Runtime) : Runtime :=
  {| world := w; listeners := listeners r; next_handle := next_handle r;
     chats_cleanup := chats_cleanup r; messages_cleanup := messages_cleanup r |}.

(** [unsubscribe()] for the listener under handle [h]. *)
Definition unsubscribe (h : nat) (ls : list (nat * Query)) : list (nat * Query) :=
  filter (fun l => l.1 ≠ h) ls.

(** The listener attached under a handle, if it still is. *)
Definition attached (h : nat) (ls : list (nat * Query)) : option Query :=
  snd <$> head (filter (fun l => l.1 = h) ls).

Section Effects.
Context {E : Engine}.
Variable __app_id : option jsstring.

(** The cleanup React runs before it runs an effect again. *)
Definition cleanup_chats (r : Runtime) : Runtime :=
  match chats_cleanup r with
  | Some h =>
      {| world := world r; listeners := unsubscribe h (listeners r);
         next_handle := next_handle r; chats_cleanup := None;
         messages_cleanup := messages_cleanup r |}
  | None => r
  end.

Definition cleanup_messages (r : Runtime) : Runtime :=
  match messages_cleanup r with
  | Some h =>
      {| world := world r; listeners := unsubscribe h (listeners r);
         next_handle := next_handle r; chats_cleanup := chats_cleanup r;
         messages_cleanup := None |}
  | None => r
  end.

(** The body of the chat-list effect, lines 147-169.  An early [return]
    leaves no cleanup behind. *)
Definition chats_effect (r : Runtime) : Runtime :=
  let s := ui (world r) in
  if bool_decide (user s = None) || negb (isAuthReady s) then
    {| world := world r; listeners := listeners r; next_handle := next_handle r;
       chats_cleanup := None; messages_cleanup := messages_cleanup r |}
  else
    match user s with
    | Some u =>
        {| world := world r;
           listeners := listeners r
             ++ [(next_handle r, ChatsQuery (chatsCollectionPath __app_id u))];
           next_handle := S (next_handle r);
           chats_cleanup := Some (next_handle r);
           messages_cleanup := messages_cleanup r |}
    | None => r
    end.

(** The body of the message effect, lines 172-190. *)
Definition messages_effect (r : Runtime) : Runtime :=
  let s := ui (world r) in
  if no_chat (activeChatId s) || bool_decide (user s = None) then
    {| world := with_ui (set_messages []) (world r); listeners := listeners r;
       next_handle := next_handle r; chats_cleanup := chats_cleanup r;
       messages_cleanup := None |}
  else
    match activeChatId s, user s with
    | Some chatId, Some u =>
        {| world := world r;
           listeners := listeners r
             ++ [(next_handle r, MessagesQuery (messagesCollectionPath __app_id u chatId))];
           next_handle := S (next_handle r);
           chats_cleanup := chats_cleanup r;
           messages_cleanup := Some (next_handle r) |}
    | _, _ => r
    end.

(** The dependency lists of the two effects; [appId] is constant and
    [handleNewChat] changes with [user] only. *)
Definition chats_deps (s : State) : option FirebaseUser * bool * option jsstring :=
  (user s, isAuthReady s, activeChatId s).

Definition messages_deps (s : State) : option jsstring * option FirebaseUser :=
  (activeChatId s, user s).

(** React after a render: the effects with a changed dependency have
    their previous cleanups run, and then their bodies, in the order the
    component declares them. *)
Definition commit (prev : State) (r : Runtime) : Runtime :=
  let s := ui (world r) in
  let chats_changed := bool_decide (chats_deps prev ≠ chats_deps s) in
  let messages_changed := bool_decide (messages_deps prev ≠ messages_deps s) in
  let r1 := if chats_changed then cleanup_chats r else r in
  let r2 := if messages_changed then cleanup_messages r1 else r1 in
  let r3 := if chats_changed then chats_effect r2 else r2 in
  if messages_changed then messages_effect r3 else r3.

(** One event handled: the handler runs, then React commits. *)
Definition dispatch (p : Proc unit) (env : Env) (r : Runtime) : Runtime :=
  let prev := ui (world r) in
  commit prev (with_world (run p env (world r)).1 r).

(** [onClick={() => setActiveChatId(chat.id)}], line 301. *)
Definition selectChat (chatId : jsstring) : Proc unit :=
  perform_op (SetActiveChatId (Some chatId)).

(** A snapshot the store pushes to the listener under handle [h]: it
    reaches the callback only while the listener is attached. *)
Definition push_messages (h : nat) (docs : list (jsstring * MessageData))
    (env : Env) (r : Runtime) : Runtime :=
  match attached h (listeners r) with
  | Some (MessagesQuery _) => dispatch (onMessagesSnapshot docs) env r
  | _ => r
  end.

Definition push_chats (h : nat) (docs : list (jsstring * ChatData))
    (env : Env) (r : Runtime) : Runtime :=
  match attached h (listeners r) with
  | Some (ChatsQuery _) =>
      dispatch (onChatsSnapshot __app_id (ui (world r)) docs) env r
  | _ => r
  end.

(** The message listeners attached at the moment. *)
Definition message_listeners (r : Runtime) : list (nat * jsstring) :=
  omap (fun l => match l.2 with
                 | MessagesQuery path => Some (l.1, path)
                 | ChatsQuery _ => None
                 end) (listeners r).

(** What holds between events: handles in use are below the next one to
    hand out, and the only message listener attached is the one the
    message effect can still clean up. *)
Definition consistent (r : Runtime) : Prop :=
  (forall l, l ∈ listeners r -> l.1 < next_handle r)
  /\ (forall h, messages_cleanup r = Some h -> h < next_handle r)
  /\ (forall h path, (h, path) ∈ message_listeners r -> messages_cleanup r = Some h).

(** No listener is attached under handle [h]. *)
Definition detached (h : nat) (r : Runtime) : Prop :=
  forall l, l ∈ listeners r -> l.1 ≠ h.

End Effects.

(** The state [useState] starts from, and the component once mounted:
    without a user neither effect subscribes. *)
Definition initial_state : State :=
  {| user := None; chats := []; activeChatId := None; messages := [];
     input := []; isLoading := false; isAuthReady := false |}.

Definition initial_world : World :=
  {| ui := initial_state; store := []; trace := []; nows := 0; adds := 0;
     deletes := 0; fetches := 0 |}.

Definition mounted : Runtime :=
  {| world := initial_world; listeners := []; next_handle := 0;
     chats_cleanup := None; messages_cleanup := None |}.

(** ** The specification's vocabulary *)

(** Text that is empty or made of white space and line terminators only. *)
Definition whitespace_only (s : jsstring) : Prop :=
  Forall (fun c => isTrimmed c = true) s.

(** The specification's response shape,
    [candidates[0].content.parts[0].text]: a field of an object, the
    first element of an array. *)
Definition field (key : jsstring) (v : value) : option value :=
  match v with
  | JObj fields => own fields key
  | _ => None
  end.

Definition first_element (v : value) : option value :=
  match v with
  | JArr items => head items
  | _ => None
  end.

Definition first_candidate_text (body : value) : option value :=
  candidates ← field (lit "candidates") body;
  candidate ← first_element candidates;
  content_ ← field (lit "content") candidate;
  parts ← field (lit "parts") content_;
  part ← first_element parts;
  field (lit "text") part.

(** A field that is absent or [null]. *)
Definition missing (key : jsstring) (fields : list (jsstring * value)) : Prop :=
  own fields key = None ∨ own fields key = Some JNull.

(** A response body, itself an object, on which the path to the first
    candidate's text stops at a missing field or at an empty list. *)
Inductive no_candidate_text : value -> Prop :=
| no_candidates fields :
    missing (lit "candidates") fields ->
    no_candidate_text (JObj fields)
| empty_candidates fields :
    own fields (lit "candidates") = Some (JArr []) ->
    no_candidate_text (JObj fields)
| no_content fields candidate rest :
    own fields (lit "candidates") = Some (JArr (JObj candidate :: rest)) ->
    missing (lit "content") candidate ->
    no_candidate_text (JObj fields)
| no_parts fields candidate rest content_ :
    own fields (lit "candidates") = Some (JArr (JObj candidate :: rest)) ->
    own candidate (lit "content") = Some (JObj content_) ->
    missing (lit "parts") content_ ->
    no_candidate_text (JObj fields)
| empty_parts fields candidate rest content_ :
    own fields (lit "candidates") = Some (JArr (JObj candidate :: rest)) ->
    own candidate (lit "content") = Some (JObj content_) ->
    own content_ (lit "parts") = Some (JArr []) ->
    no_candidate_text (JObj fields).

(** ** Further vocabulary *)

(** A boolean, a number or a string. *)
Definition scalar (v : value) : bool :=
  match v with
  | JBool _ | JNum _ | JStr _ => true
  | _ => false
  end.

(** The store path a request addresses, if it is a store request. *)
Definition store_path (r : Request) : option jsstring :=
  match r with
  | ReqAddDoc path _ | ReqDeleteDoc path => Some path
  | ReqFetch _ _ | ReqLog _ _ => None
  end.

(** ** Identity, rendering, and the component between events *)

Definition set_user (v : option FirebaseUser) (s : State) : State :=
  {| user := v; chats := chats s; activeChatId := activeChatId s;
     messages := messages s; input := input s; isLoading := isLoading s;
     isAuthReady := isAuthReady s |}.

Definition set_isAuthReady (v : bool) (s : State) : State :=
  {| user := user s; chats := chats s; activeChatId := activeChatId s;
     messages := messages s; input := input s; isLoading := isLoading s;
     isAuthReady := v |}.

(** The callback given to [onAuthStateChanged], lines 116-123, called
    with the provider's user or [null]; [signIn] is how
    [signInAnonymously(auth)] settles when it is called.  The result is
    the state and how the callback's promise settles. *)
Definition onAuthStateChanged (firebaseUser : option FirebaseUser)
    (signIn : exn + unit) (s : State) : State * (exn + unit) :=
  match firebaseUser with
  | Some u => (set_isAuthReady true (set_user (Some u) s), inr tt)
  | None =>
      match signIn with
      | inl e => (s, inl e)
      | inr _ => (set_isAuthReady true s, inr tt)
      end
  end.

(** [if (!isAuthReady) return <div>Loading...</div>], lines 281-283. *)
Definition renders_loading_screen (s : State) : bool := negb (isAuthReady s).

(** [disabled={isLoading || !input.trim()}] of the send button, line 452. *)
Definition sendButton_disabled (s : State) : bool :=
  isLoading s || negb (truthy_string (trim (input s))).

Record KeyboardEvent := {
  key : jsstring;
  shiftKey : bool
}.

(** [handleKeyDown], lines 418-423: whether the event's default is
    prevented, and what the handler goes on to run. *)
Definition handleKeyDown (event : KeyboardEvent) (onSendMessage : Proc unit)
    : bool * Proc unit :=
  if bool_decide (key event = lit "Enter") && negb (shiftKey event)
  then (true, onSendMessage)
  else (false, Ret tt).

(** The listener entries of a chat-list and of a message subscription. *)
Definition chat_entry (co : option (nat * jsstring)) : list (nat * Query) :=
  match co with
  | Some (h, path) => [(h, ChatsQuery path)]
  | None => []
  end.

Definition message_entry (mo : option (nat * jsstring)) : list (nat * Query) :=
  match mo with
  | Some (h, path) => [(h, MessagesQuery path)]
  | None => []
  end.

(** The chat-list listeners attached at the moment. *)
Definition chat_listeners (r : Runtime) : list (nat * jsstring) :=
  omap (fun l => match l.2 with
                 | ChatsQuery path => Some (l.1, path)
                 | MessagesQuery _ => None
                 end) (listeners r).

(** The listeners attached are exactly the chat-list subscription [co]
    and the message subscription [mo], each the one its effect can clean
    up, under distinct handles that were handed out. *)
Definition holds (r : Runtime) (co mo : option (nat * jsstring)) : Prop :=
  listeners r ≡ₚ chat_entry co ++ message_entry mo
  /\ chats_cleanup r = fst <$> co
  /\ messages_cleanup r = fst <$> mo
  /\ (forall hp, co = Some hp -> hp.1 < next_handle r)
  /\ (forall hp, mo = Some hp -> hp.1 < next_handle r)
  /\ (forall hp hp', co = Some hp -> mo = Some hp' -> hp.1 <> hp'.1).

Section Between.
Variable __app_id : option jsstring.

(** The authentication callback as an event: it runs, then React
    commits. *)
Definition auth_event (firebaseUser : option FirebaseUser) (signIn : exn + unit)
    (r : Runtime) : Runtime :=
  let prev := ui (world r) in
  commit __app_id prev
    (with_world (with_ui (fun s => (onAuthStateChanged firebaseUser signIn s).1)
                   (world r)) r).

(** What the chat-list effect subscribes to in a state, under handle [h]. *)
Definition chats_subscription (s : State) (h : nat) : option (nat * jsstring) :=
  if bool_decide (user s = None) || negb (isAuthReady s) then None
  else (fun u => (h, chatsCollectionPath __app_id u)) <$> user s.

(** What the message effect subscribes to in a state, under handle [h]. *)
Definition messages_subscription (s : State) (h : nat) : option (nat * jsstring) :=
  if no_chat (activeChatId s) || bool_decide (user s = None) then None
  else match activeChatId s, user s with
       | Some chatId, Some u => Some (h, messagesCollectionPath __app_id u chatId)
       | _, _ => None
       end.

(** The listeners attached are those the two effects set up for the
    state [s]. *)
Definition subscribed_for (s : State) (r : Runtime) : Prop :=
  exists hc hm, holds r (chats_subscription s hc) (messages_subscription s hm).

(** The component after any sequence of events since it was mounted:
    an authentication callback, or the run of any tree of operations (a
    handler, a snapshot callback, or a stretch of one between two points
    where it waits). *)
Inductive reachable : Runtime -> Prop :=
| reach_mounted : reachable mounted
| reach_auth firebaseUser signIn r :
    reachable r -> reachable (auth_event firebaseUser signIn r)
| reach_dispatch p env r :
    reachable r -> reachable (dispatch __app_id p env r).

End Between.

(** ** Closed scenarios *)

(** The message V8 gives the [TypeError] of a property read on [null] or
    [undefined]. *)
Definition v8_TypeError_message (v : value) (key : jsstring) : jsstring :=
  lit "Cannot read properties of "
    ++ match v with JNull => lit "null" | _ => lit "undefined" end
    ++ lit " (reading '" ++ key ++ lit "')".

(** An engine for the closed scenarios below.  None of them converts
    between numbers and strings or looks into a serialised payload, so
    these three are left constant. *)
Definition scenario_engine : Engine :=
  {| StringToNumber := fun _ => S754_nan;
     NumberToString := fun _ => lit "NaN";
     JSON_stringify := fun _ => lit "{}";
     TypeError_message := v8_TypeError_message |}.

Definition alice : FirebaseUser := {| uid := lit "alice"; isAnonymous := true |}.

Definition chat_named (i : string) (t : Timestamp) : Chat :=
  {| c_id := lit i; c_data := {| title := lit "New Chat"; createdAt := t |} |}.

(** A signed-in user with the given chats, selection and typed input. *)
Definition scenario_state (cs : list Chat) (sel : option jsstring)
    (typed : jsstring) : State :=
  {| user := Some alice; chats := cs; activeChatId := sel; messages := [];
     input := typed; isLoading := false; isAuthReady := true |}.

Definition scenario_world (s : State) : World :=
  {| ui := s; store := []; trace := []; nows := 0; adds := 0; deletes := 0;
     fetches := 0 |}.

(** [{candidates:[{content:{parts:[{text:"Hello"}]}}]}] *)
Definition hello_body : value :=
  JObj [(lit "candidates",
         JArr [JObj [(lit "content",
                      JObj [(lit "parts", JArr [JObj [(lit "text", JStr (lit "Hello"))]])])]])].

(** Surroundings whose clock ticks once per read, whose store settles
    writes as [writes] says, accepts deletions as [deletions] says, and
    whose completion endpoint settles as [completion]. *)
Definition scenario_env (writes : nat -> exn + jsstring)
    (deletions : exn + unit) (completion : exn + Response) : Env :=
  {| clock := fun n => N.of_nat (100 + n);
     addDoc_settles := writes;
     deleteDoc_settles := fun _ => deletions;
     fetch_settles := fun _ => completion |}.

Definition accepted : nat -> exn + jsstring :=
  fun n => inr (lit "doc" ++ lit (pretty n)).

Definition denied : exn := ErrorObj (lit "permission-denied").

Definition http (code : N) (parsed : exn + value) : exn + Response :=
  inr {| status := code; json := parsed |}.

(** A signed-in user who typed [typed] with the thread "a" selected. *)
Definition typing (typed : string) : World :=
  scenario_world
    (scenario_state [chat_named "a" 2%N; chat_named "b" 1%N] (Some (lit "a")) (lit typed)).

(** Thread "b" is selected, of the cached threads "a" and "b". *)
Definition on_second_thread : World :=
  scenario_world
    (scenario_state [chat_named "a" 2%N; chat_named "b" 1%N] (Some (lit "b")) []).

(** A signed-in user right after the first, empty push: no thread yet. *)
Definition without_threads : World := scenario_world (scenario_state [] None []).

(** A store that accepts everything and an endpoint that answers
    200 with "Hello". *)
Definition all_well : Env := scenario_env accepted (inr tt) (http 200 (inr hello_body)).

(** The endpoint answers 500. *)
Definition endpoint_down : Env := scenario_env accepted (inr tt) (http 500 (inr JNull)).

(** The endpoint answers 200 with nothing in the body. *)
Definition empty_body : Env :=
  scenario_env accepted (inr tt)
    (http 200 (inl (ErrorObj (lit "Unexpected end of JSON input")))).

(** The endpoint answers 200 with the body [null]. *)
Definition null_body : Env := scenario_env accepted (inr tt) (http 200 (inr JNull)).

(** The store rejects every write and every deletion. *)
Definition store_denies : Env :=
  scenario_env (fun _ => inl denied) (inl denied) (http 200 (inr hello_body)).

(** The store accepts the first write and rejects the later ones; the
    endpoint answers 500. *)
Definition second_write_denied : Env :=
  scenario_env (fun n => match n with 0 => accepted 0 | _ => inl denied end)
    (inr tt) (http 500 (inr JNull)).

(** The component of a signed-in user before any thread is selected,
    and after a click on thread "a". *)
Definition signed_in : Runtime :=
  {| world := scenario_world
                (scenario_state [chat_named "a" 2%N; chat_named "b" 1%N] None []);
     listeners := []; next_handle := 0;
     chats_cleanup := None; messages_cleanup := None |}.

Definition viewing_first : Runtime :=
  dispatch None (selectChat (lit "a")) all_well signed_in.

(** The component once the provider has reported the user, and after a
    click on thread "a". *)
Definition after_sign_in : Runtime := auth_event None (Some alice) (inr tt) mounted.

Definition reading_first : Runtime :=
  dispatch None (selectChat (lit "a")) all_well after_sign_in.

(** The request to the endpoint is rejected. *)
Definition network_down : Env :=
  scenario_env accepted (inr tt) (inl (ErrorObj (lit "Failed to fetch"))).

(** The endpoint answers 200 with "Hello"; the store rejects the second
    write and accepts the others. *)
Definition reply_denied : Env :=
  scenario_env (fun n => match n with 1 => inl denied | _ => accepted n end)
    (inr tt) (http 200 (inr hello_body)).

(** Thread "b" selected, with its document and one of its messages in
    the store. *)
Definition with_history : World :=
  {| ui := scenario_state [chat_named "a" 2%N; chat_named "b" 1%N] (Some (lit "b")) [];
     store := [(chatDocPath None alice (lit "b"),
                ChatDoc {| title := lit "New Chat"; createdAt := 1%N |});
               (doc_path (messagesCollectionPath None alice (lit "b")) (lit "m1"),
                MessageDoc {| text := JStr (lit "hi"); role := role_user;
                              timestamp := 5%N |})];
     trace := []; nows := 0; adds := 0; deletes := 0; fetches := 0 |}.

(** A click on a thread before any identity is resolved. *)
Definition early_click : Runtime :=
  dispatch None (selectChat (lit "a")) all_well mounted.

(** Thread "b" is selected, of the cached threads "a", "b" and "c". *)
Definition on_middle_thread : World :=
  scenario_world
    (scenario_state [chat_named "a" 3%N; chat_named "b" 2%N; chat_named "c" 1%N]
       (Some (lit "b")) []).

(** A signed-in user who typed "hello" in their only thread, "a". *)
Definition in_only_thread : World :=
  scenario_world (scenario_state [chat_named "a" 1%N] (Some (lit "a")) (lit "hello")).

(** The send of [in_only_thread] once the store has accepted its user
    message: waiting for the completion. *)
Definition first_send_pending : World * Suspended unit :=
  let first :=
    start (handleSendMessage (E := scenario_engine) None (ui in_only_thread))
      all_well in_only_thread in
  advance first.2 all_well first.1.

(** Meanwhile the user deletes thread "a", the store pushes the empty
    chat list, and the user types "again". *)
Definition typed_again : World :=
  let deleted :=
    (run (handleDeleteChat (E := scenario_engine) None (ui first_send_pending.1) (lit "a"))
       all_well first_send_pending.1).1 in
  let pushed :=
    (run (onChatsSnapshot (E := scenario_engine) None (ui deleted) []) all_well deleted).1 in
  with_ui (set_input (lit "again")) pushed.

(** The second send runs to its end, and then the first one does. *)
Definition both_sends_done : World :=
  let second :=
    run (handleSendMessage (E := scenario_engine) None (ui typed_again)) all_well
      typed_again in
  (resume first_send_pending.2 all_well second.1).1.

(** ** Statements under test

    The sentences of the specification that the code is checked against
    below, each as a predicate on one call. *)

Section Statements.
Context {E : Engine}.
Variable app : option jsstring.

(** A completion that settles with a non-success status leaves exactly
    two new documents, the user's text and then a model turn starting
    with "Error: ", and the call does not throw. *)
Definition error_turn_stated (env : Env) (w : World) : Prop :=
  forall resp,
    fetch_settles env (fetches w) = inr resp -> ok resp = false ->
    let out := run (handleSendMessage app (ui w)) env w in
    out.2 = inr tt
    /\ exists p1 t1 p2 t2 reason,
         store out.1 = store w ++
           [(p1, MessageDoc {| text := JStr (input (ui w)); role := role_user;
                               timestamp := t1 |});
            (p2, MessageDoc {| text := JStr (lit "Error: " ++ reason);
                               role := role_model; timestamp := t2 |})].

(** A successful response appends a model message carrying the first
    candidate's text, or the fallback when there is none to extract
    (the body does not parse, or lacks the path). *)
Definition extraction_stated (env : Env) (w : World) : Prop :=
  forall resp,
    fetch_settles env (fetches w) = inr resp -> ok resp = true ->
    let out := run (handleSendMessage app (ui w)) env w in
    let extracted :=
      match json resp with
      | inr body => first_candidate_text body
      | inl _ => None
      end in
    exists p t,
      last (store out.1) =
        Some (p, MessageDoc {| text := default (JStr fallbackResponse) extracted;
                               role := role_model; timestamp := t |}).

(** A push of an empty chat list creates the default thread. *)
Definition default_thread_stated (env : Env) (w : World) : Prop :=
  forall u, user (ui w) = Some u ->
    let out := run (onChatsSnapshot app (ui w) []) env w in
    exists i,
      store out.1 = store w ++
        [(doc_path (chatsCollectionPath app u) i,
          ChatDoc {| title := lit "New Chat"; createdAt := clock env (nows w) |})].

(** The threads listed after the first occurrence of [chatId]. *)
Fixpoint listed_after (chatId : jsstring) (l : list Chat) : list Chat :=
  match l with
  | [] => []
  | ch :: rest => if decide (c_id ch = chatId) then rest else listed_after chatId rest
  end.

(** The next remaining thread in list order: the first thread other
    than [chatId] listed after it; when none is listed after it, the
    list is taken up again from its start; none when no thread
    remains. *)
Definition next_remaining (chatId : jsstring) (l : list Chat) : option Chat :=
  match filter (fun ch => c_id ch ≠ chatId) (listed_after chatId l) with
  | ch :: _ => Some ch
  | [] => head (filter (fun ch => c_id ch ≠ chatId) l)
  end.

(** Deleting the selected thread moves the selection to the next
    remaining thread in list order, or to none when no thread remains;
    deleting another leaves it alone. *)
Definition reselection_stated (env : Env) (w : World) (chatId : jsstring) : Prop :=
  let out := run (handleDeleteChat app (ui w) chatId) env w in
  (activeChatId (ui w) = Some chatId ->
   activeChatId (ui out.1) = c_id <$> next_remaining chatId (chats (ui w)))
  /\ (activeChatId (ui w) ≠ Some chatId ->
      activeChatId (ui out.1) = activeChatId (ui w)).

(** A send that passed its guard has cleared the input on the page by
    the time it issues the write of the user message, and the input is
    empty when the call ends. *)
Definition cleared_before_write_stated (env : Env) (w : World) : Prop :=
  send_rejected (ui w) = false ->
  (forall st r,
      head (exposed (handleSendMessage app (ui w)) env (ui w) w) = Some (st, r) ->
      input st = [])
  /\ input (ui (run (handleSendMessage app (ui w)) env w).1) = [].

End Statements.

(** ** Properties *)

Opaque lit.
Arguments trim : simpl never.
Arguments eval _ !_ /.
Arguments modelResponse_of : simpl never.
Arguments chatsCollectionPath : simpl never.
Arguments chatDocPath : simpl never.
Arguments messagesCollectionPath : simpl never.
Arguments doc_path : simpl never.
Arguments apiUrl : simpl never.
Arguments Proc_bind _ _ _ !_ /.
Arguments Proc_ret _ _ /.
Arguments send_try : simpl never.
Arguments pretty : simpl never.
Arguments send_catch : simpl never.

Section Properties.
Context {E : Engine}.
Variable app : option jsstring.

(** *** The handlers' building blocks *)

Lemma trimStart_whitespace_only (s : jsstring) :
  whitespace_only s -> trimStart s = [].
Proof.
  induction 1 as [|c s Hc _ IH]; simpl; [reflexivity|].
  now rewrite Hc.
Qed.

Lemma trim_whitespace_only (s : jsstring) :
  whitespace_only s -> trim s = [].
Proof.
  intros H. unfold trim. now rewrite (trimStart_whitespace_only s H).
Qed.

Lemma send_rejected_when (c : State) :
  whitespace_only (input c) \/ user c = None \/ activeChatId c = None
    \/ isLoading c = true ->
  send_rejected c = true.
Proof.
  unfold send_rejected.
  intros [H|[H|[H|H]]].
  - now rewrite (trim_whitespace_only _ H).
  - rewrite H. simpl. now rewrite orb_true_r.
  - rewrite H. simpl. now rewrite !orb_true_r.
  - rewrite H. now rewrite !orb_true_r.
Qed.

(** What the guard of line 212 turns away.  A call of sendMessage whose
    text is empty or white space only, or made without a resolved
    identity, without a selected thread, or while the loading flag is
    up, does nothing: the handler returns at once, the world after the
    call is the world before it, so nothing is written to the store,
    nothing is requested, and the flag keeps its value (idle stays
    idle). *)
Lemma sendMessage_rejected_is_noop (env : Env) (w : World) :
  whitespace_only (input (ui w)) \/ user (ui w) = None
    \/ activeChatId (ui w) = None \/ isLoading (ui w) = true ->
  let w' := (run (handleSendMessage app (ui w)) env w).1 in
  run (handleSendMessage app (ui w)) env w = (w, inr tt)
  /\ store w' = store w
  /\ issued_since w w' = []
  /\ (isLoading (ui w) = false -> isLoading (ui w') = false).
Proof.
  intros H. apply send_rejected_when in H.
  unfold handleSendMessage. rewrite H. simpl.
  repeat split; try tauto.
  unfold issued_since. now rewrite drop_all.
Qed.

(** *** How a run decomposes *)

Lemma run_bind {A B} (p : Proc A) (f : A -> Proc B) (env : Env) (w : World) :
  run (bind p f) env w =
    match (run p env w).2 with
    | inl e => ((run p env w).1, inl e)
    | inr a => run (f a) env (run p env w).1
    end.
Proof.
  revert w. induction p as [a|e|X op k IH]; intros w; simpl; try reflexivity.
  destruct (perform op env w) as [w' x]. apply IH.
Qed.

Lemma run_try_catch {A} (p : Proc A) (h : exn -> Proc A) (env : Env) (w : World) :
  run (try_catch p h) env w =
    match (run p env w).2 with
    | inl e => run (h e) env (run p env w).1
    | inr a => ((run p env w).1, inr a)
    end.
Proof.
  revert w. induction p as [a|e|X op k IH]; intros w; simpl; try reflexivity.
  destruct (perform op env w) as [w' x]. apply IH.
Qed.

Lemma run_try_finally {A} (p : Proc A) (f : Proc unit) (env : Env) (w : World) :
  run (try_finally p f) env w =
    let out := run p env w in
    let out' := run f env out.1 in
    (out'.1, match out'.2 with inl e => inl e | inr _ => out.2 end).
Proof.
  revert w. induction p as [a|e|X op k IH]; intros w; simpl.
  - rewrite run_bind. now destruct (run f env w) as [w' [e'|[]]].
  - rewrite run_bind. now destruct (run f env w) as [w' [e'|[]]].
  - destruct (perform op env w) as [w' x]. apply IH.
Qed.

(** A run is its synchronous prefix followed by the rest. *)
Lemma run_start_resume {A} (p : Proc A) (env : Env) (w : World) :
  run p env w = resume (start p env w).2 env (start p env w).1.
Proof.
  revert w. induction p as [a|e|X op k IH]; intros w; simpl; try reflexivity.
  destruct (suspends op); [reflexivity|].
  destruct (perform op env w) as [w' x]. apply IH.
Qed.

Lemma run_send_catch (path : jsstring) (error : exn) (env : Env) (w : World) :
  run (send_catch path error) env w =
    let doc := MessageDoc {| text := JStr (lit "Error: " ++ error_text error);
                             role := role_model; timestamp := clock env (nows w) |} in
    let r := addDoc_settles env (adds w) in
    (settle_add path doc r
       (issue (ReqAddDoc path doc)
          (read_clock
             (issue (ReqLog (lit "Error calling Gemini API or saving message:") error) w))),
     match r with inl e => inl e | inr _ => inr tt end).
Proof.
  unfold send_catch. simpl. now destruct (addDoc_settles env (adds w)).
Qed.

Lemma run_send_try (c : State) (path userInput : jsstring) (env : Env) (w : World) :
  run (send_try c path userInput) env w =
    let init :=
      {| method := lit "POST";
         headers := [(lit "Content-Type", lit "application/json")];
         body := JSON_stringify
                   (JObj [(lit "contents",
                           JArr (map (fun m => content (role (m_data m)) (text (m_data m)))
                                     (messages c)
                                 ++ [content role_user (JStr userInput)]))]) |} in
    let w1 := settle_fetch (issue (ReqFetch apiUrl init) w) in
    match fetch_settles env (fetches w) with
    | inl e => (w1, inl e)
    | inr response =>
        if ok response then
          match json response with
          | inl e => (w1, inl e)
          | inr result =>
              match modelResponse_of result with
              | inl e => (w1, inl e)
              | inr modelResponse =>
                  let doc := MessageDoc {| text := modelResponse; role := role_model;
                                           timestamp := clock env (nows w) |} in
                  let r := addDoc_settles env (adds w) in
                  (settle_add path doc r (issue (ReqAddDoc path doc) (read_clock w1)),
                   match r with inl e => inl e | inr _ => inr tt end)
              end
          end
        else
          (w1, inl (ErrorObj (lit "API call failed with status: "
                                ++ lit (pretty (status response)))))
    end.
Proof.
  unfold send_try. simpl.
  destruct (fetch_settles env (fetches w)) as [e|response]; simpl; [reflexivity|].
  destruct (ok response); simpl; [|reflexivity].
  destruct (json response) as [e|result]; simpl; [reflexivity|].
  destruct (modelResponse_of result) as [e|modelResponse]; simpl; [reflexivity|].
  now destruct (addDoc_settles env (adds w)).
Qed.

Lemma send_accepted (c : State) :
  send_rejected c = false ->
  exists u chatId,
    user c = Some u /\ activeChatId c = Some chatId
    /\ trim (input c) <> [] /\ isLoading c = false.
Proof.
  unfold send_rejected. intros H.
  apply orb_false_elim in H as [H Hl].
  apply orb_false_elim in H as [H Ha].
  apply orb_false_elim in H as [Hi Hu].
  destruct (user c) as [u|]; [|discriminate].
  destruct (activeChatId c) as [chatId|]; [|discriminate].
  exists u, chatId. repeat split; try assumption.
  intros Ht. rewrite Ht in Hi. discriminate.
Qed.

Lemma run_handleSendMessage (c : State) (u : FirebaseUser) (chatId : jsstring)
    (env : Env) (w : World) :
  send_rejected c = false -> user c = Some u -> activeChatId c = Some chatId ->
  run (handleSendMessage app c) env w =
    let path := messagesCollectionPath app u chatId in
    let doc := MessageDoc {| text := JStr (trim (input c)); role := role_user;
                             timestamp := clock env (nows w) |} in
    let r := addDoc_settles env (adds w) in
    let w1 := settle_add path doc r
                (issue (ReqAddDoc path doc)
                   (read_clock
                      (with_ui (set_isLoading true) (with_ui (set_input []) w)))) in
    match r with
    | inl e => (w1, inl e)
    | inr _ =>
        let out := run (try_catch (send_try c path (trim (input c))) (send_catch path))
                       env w1 in
        (with_ui (set_isLoading false) out.1, out.2)
    end.
Proof.
  intros Hpass Hu Ha. unfold handleSendMessage. rewrite Hpass, Hu, Ha.
  simpl. destruct (addDoc_settles env (adds w)) as [e|i]; simpl; [reflexivity|].
  rewrite run_try_finally. simpl.
  now destruct (run _ env _) as [w' [e|[]]].
Qed.

(** A call that passed its guard runs up to the write of the user
    message, and once the store has accepted that write, up to the
    completion request. *)
Lemma advance_handleSendMessage (c : State) (u : FirebaseUser) (chatId m : jsstring)
    (env : Env) (w : World) :
  send_rejected c = false -> user c = Some u -> activeChatId c = Some chatId ->
  addDoc_settles env (adds w) = inr m ->
  let path := messagesCollectionPath app u chatId in
  let doc := MessageDoc {| text := JStr (trim (input c)); role := role_user;
                           timestamp := clock env (nows w) |} in
  let first := start (handleSendMessage app c) env w in
  first.1 = read_clock (with_ui (set_isLoading true) (with_ui (set_input []) w))
  /\ exists init k,
       advance first.2 env first.1 =
         (settle_add path doc (inr m) (issue (ReqAddDoc path doc) first.1),
          Awaiting (Fetch apiUrl init) k).
Proof.
  intros Hpass Hu Ha Hadd. unfold handleSendMessage. rewrite Hpass, Hu, Ha.
  simpl. split; [reflexivity|]. rewrite Hadd. simpl.
  do 2 eexists. reflexivity.
Qed.

(** *** Handlers that leave the input alone *)

Lemma leaves_input_bind {A B} (p : Proc A) (f : A -> Proc B) :
  leaves_input p -> (forall a, leaves_input (f a)) -> leaves_input (bind p f).
Proof.
  intros Hp Hf. induction p as [a|e|X op k IH]; simpl; auto.
  destruct Hp as [Hop Hk]. split; [assumption|]. intros x. apply IH, Hk.
Qed.

Lemma leaves_input_try_catch {A} (p : Proc A) (h : exn -> Proc A) :
  leaves_input p -> (forall e, leaves_input (h e)) -> leaves_input (try_catch p h).
Proof.
  intros Hp Hh. induction p as [a|e|X op k IH]; simpl; auto.
  destruct Hp as [Hop Hk]. split; [assumption|]. intros x. apply IH, Hk.
Qed.

Lemma leaves_input_try_finally {A} (p : Proc A) (f : Proc unit) :
  leaves_input p -> leaves_input f -> leaves_input (try_finally p f).
Proof.
  intros Hp Hf. induction p as [a|e|X op k IH]; simpl.
  - now apply leaves_input_bind.
  - now apply leaves_input_bind.
  - destruct Hp as [Hop Hk]. split; [assumption|]. intros x. apply IH, Hk.
Qed.

Lemma leaves_input_eval {X} (r : exn + X) : leaves_input (eval r).
Proof. now destruct r. Qed.

Lemma leaves_input_await {X} (op : Op (exn + X)) :
  sets_input op = false -> leaves_input (await op).
Proof. intros H. split; [assumption|]. now intros [e|x]. Qed.

Lemma leaves_input_send_try (c : State) (path userInput : jsstring) :
  leaves_input (send_try c path userInput).
Proof.
  unfold send_try.
  apply leaves_input_bind; [now apply leaves_input_await|]. intros response.
  apply leaves_input_bind; [now destruct (negb (ok response))|]. intros _.
  apply leaves_input_bind; [apply leaves_input_eval|]. intros result.
  apply leaves_input_bind; [apply leaves_input_eval|]. intros modelResponse.
  apply leaves_input_bind; [now split|]. intros now.
  apply leaves_input_bind; [now apply leaves_input_await|]. now intros _.
Qed.

Lemma leaves_input_send_catch (path : jsstring) (error : exn) :
  leaves_input (send_catch path error).
Proof.
  unfold send_catch.
  apply leaves_input_bind; [now split|]. intros _.
  apply leaves_input_bind; [now split|]. intros now.
  apply leaves_input_bind; [now apply leaves_input_await|]. now intros _.
Qed.

(** While a handler that leaves the input alone runs, an empty input
    stays empty, on the page and among the queued updates. *)
Lemma exposed_leaves_input {A} (p : Proc A) (env : Env) (shown : State) (w : World) :
  leaves_input p -> input shown = [] -> input (ui w) = [] ->
  Forall (fun o => input o.1 = []) (exposed p env shown w).
Proof.
  revert shown w. induction p as [a|e|X op k IH]; intros shown w Hp Hs Hw;
    simpl; try constructor.
  destruct Hp as [Hop Hk].
  assert (Hw' : input (ui (perform op env w).1) = []).
  { destruct op; try discriminate Hop; simpl; try assumption. }
  destruct (perform op env w) as [w' x]. simpl in Hw'.
  assert (Hlater : Forall (fun o => input o.1 = [])
            (exposed (k x) env (if suspends op then ui w else shown) w')).
  { apply IH; [apply Hk| |assumption]. now destruct (suspends op). }
  destruct (request_of op); [constructor|]; assumption.
Qed.

(** The requests [exposed] lists are those the run records, in order. *)
Lemma exposed_requests {A} (p : Proc A) (env : Env) (shown : State) (w : World) :
  (trace (run p env w).1).*2 = (trace w).*2 ++ (exposed p env shown w).*2.
Proof.
  revert shown w. induction p as [a|e|X op k IH]; intros shown w; simpl;
    try now rewrite app_nil_r.
  destruct (perform op env w) as [w' x] eqn:Hop.
  rewrite (IH x (if suspends op then ui w else shown) w').
  replace w' with (perform op env w).1 by now rewrite Hop.
  destruct op; simpl; rewrite ?fmap_app, <- ?app_assoc; reflexivity.
Qed.

Opaque send_try send_catch.

(** Unfold a call of [handleSendMessage] that passed its guard. *)
Ltac enter_send Hpass u chatId :=
  let Hu := fresh "Hu" in
  let Ha := fresh "Ha" in
  destruct (send_accepted _ Hpass) as (u & chatId & Hu & Ha & _ & _);
  rewrite (run_handleSendMessage _ u chatId _ _ Hpass Hu Ha).

(** Follow the call through its [try] and [catch] blocks, with a case
    analysis on every answer the surroundings still owe. *)
Ltac settle :=
  repeat (cbv zeta; simpl;
          first
            [ rewrite run_try_catch
            | rewrite run_send_try
            | rewrite run_send_catch
            | match goal with
              | H : ?x = _ |- context [match ?x with _ => _ end] => rewrite H
              | H : ?x = _ |- context [if ?x then _ else _] => rewrite H
              | |- context [match ?x with _ => _ end] => destruct x eqn:?
              | |- context [if ?x then _ else _] => destruct x eqn:?
              end ]);
  cbv zeta; simpl.

(** *** The send pipeline *)

(** C2. When the store rejects the write of the user message, the call
    rejects with the store's error and the loading flag is left up: the
    write at line 226 sits before the [try] whose [finally] lowers the
    flag. *)
Theorem sendMessage_user_write_rejected_stays_loading
    (env : Env) (w : World) (e : exn) :
  send_rejected (ui w) = false ->
  addDoc_settles env (adds w) = inl e ->
  let out := run (handleSendMessage app (ui w)) env w in
  out.2 = inl e /\ isLoading (ui out.1) = true /\ store out.1 = store w.
Proof.
  intros Hpass Hw. enter_send Hpass u chatId.
  cbv zeta. rewrite Hw. simpl. auto.
Qed.

(** Once the user message is committed the flag is lowered on every
    path: completion failure, unreadable response, rejected model or
    error write. *)
Lemma sendMessage_idle_once_user_write_commits
    (env : Env) (w : World) (i : jsstring) :
  send_rejected (ui w) = false ->
  addDoc_settles env (adds w) = inr i ->
  isLoading (ui (run (handleSendMessage app (ui w)) env w).1) = false.
Proof.
  intros Hpass Hw. enter_send Hpass u chatId.
  cbv zeta. rewrite Hw. reflexivity.
Qed.

(** C3. When the call passes its guard, both of its store writes are
    accepted and the completion endpoint answers with a non-success
    status, the call fulfils and the store holds exactly two new
    documents in the selected thread's message collection: the trimmed
    input as a user turn, then a model turn whose text is "Error: "
    followed by the status line. *)
Theorem completion_failure_becomes_error_turn
    (env : Env) (w : World) (resp : Response) (i1 i2 : jsstring) :
  send_rejected (ui w) = false ->
  addDoc_settles env (adds w) = inr i1 ->
  fetch_settles env (fetches w) = inr resp ->
  ok resp = false ->
  addDoc_settles env (S (adds w)) = inr i2 ->
  exists u chatId,
    user (ui w) = Some u /\ activeChatId (ui w) = Some chatId
    /\ let path := messagesCollectionPath app u chatId in
       let out := run (handleSendMessage app (ui w)) env w in
       out.2 = inr tt
       /\ store out.1 = store w ++
            [(doc_path path i1,
              MessageDoc {| text := JStr (trim (input (ui w))); role := role_user;
                            timestamp := clock env (nows w) |});
             (doc_path path i2,
              MessageDoc {| text := JStr (lit "Error: "
                                          ++ lit "API call failed with status: "
                                          ++ lit (pretty (status resp)));
                            role := role_model;
                            timestamp := clock env (S (nows w)) |})].
Proof.
  intros Hpass Hw1 Hf Hok Hw2.
  destruct (send_accepted _ Hpass) as (u & chatId & Hu & Ha & _ & _).
  exists u, chatId. split; [assumption|]. split; [assumption|].
  rewrite (run_handleSendMessage _ u chatId _ _ Hpass Hu Ha).
  settle. split; [reflexivity|]. now rewrite <- app_assoc.
Qed.

(** The guard of lines 253-255 lets the first candidate's text through
    whenever the response has the specification's shape. *)
Lemma modelResponse_of_text (body t : value) :
  first_candidate_text body = Some t ->
  modelResponse_of body = inr t.
Proof.
  unfold first_candidate_text, modelResponse_of.
  destruct body as [| | | | | |fields]; try discriminate. simpl.
  destruct (own fields (lit "candidates")) as [candidates|]; [|discriminate]. simpl.
  destruct candidates as [| | | | |items|]; try discriminate.
  destruct items as [|candidate rest]; [discriminate|]. simpl.
  destruct candidate as [| | | | | |cfields]; try discriminate. simpl.
  destruct (own cfields (lit "content")) as [content_|]; [|discriminate]. simpl.
  destruct content_ as [| | | | | |kfields]; try discriminate. simpl.
  destruct (own kfields (lit "parts")) as [parts|]; [|discriminate]. simpl.
  destruct parts as [| | | | |pitems|]; try discriminate.
  destruct pitems as [|part prest]; [discriminate|]. simpl.
  destruct part as [| | | | | |pfields]; try discriminate. simpl.
  intros ->. reflexivity.
Qed.

(** It falls back when a field on the way is absent or [null], or a list
    on the way is empty. *)
Lemma modelResponse_of_fallback (body : value) :
  no_candidate_text body ->
  modelResponse_of body = inr (JStr fallbackResponse).
Proof.
  unfold modelResponse_of, missing.
  destruct 1 as [fields [H|H] | fields H | fields c rest H [H'|H']
                | fields c rest k H H' [H''|H''] | fields c rest k H H' H''];
    simpl; rewrite H; simpl; try reflexivity;
    rewrite H'; simpl; try reflexivity;
    rewrite H''; reflexivity.
Qed.

(** C4. When the call passes its guard, both of its store writes are
    accepted and the completion endpoint answers with a success status
    and a body that parses, the model turn appended after the user turn
    carries the first candidate's text if the body has the shape
    candidates[0].content.parts[0].text, and exactly the fallback string
    if the body is an object on which that path stops at an absent or
    null field or at an empty list. *)
Theorem completion_text_or_fallback
    (env : Env) (w : World) (resp : Response) (body t : value) (i1 i2 : jsstring) :
  send_rejected (ui w) = false ->
  addDoc_settles env (adds w) = inr i1 ->
  fetch_settles env (fetches w) = inr resp ->
  ok resp = true ->
  json resp = inr body ->
  addDoc_settles env (S (adds w)) = inr i2 ->
  first_candidate_text body = Some t
    \/ (no_candidate_text body /\ t = JStr fallbackResponse) ->
  exists u chatId,
    user (ui w) = Some u /\ activeChatId (ui w) = Some chatId
    /\ let path := messagesCollectionPath app u chatId in
       let out := run (handleSendMessage app (ui w)) env w in
       out.2 = inr tt
       /\ store out.1 = store w ++
            [(doc_path path i1,
              MessageDoc {| text := JStr (trim (input (ui w))); role := role_user;
                            timestamp := clock env (nows w) |});
             (doc_path path i2,
              MessageDoc {| text := t; role := role_model;
                            timestamp := clock env (S (nows w)) |})].
Proof.
  intros Hpass Hw1 Hf Hok Hj Hw2 Ht.
  assert (Hm : modelResponse_of body = inr t).
  { destruct Ht as [Ht|[Ht ->]].
    - now apply modelResponse_of_text.
    - now apply modelResponse_of_fallback. }
  destruct (send_accepted _ Hpass) as (u & chatId & Hu & Ha & _ & _).
  exists u, chatId. split; [assumption|]. split; [assumption|].
  rewrite (run_handleSendMessage _ u chatId _ _ Hpass Hu Ha).
  settle. split; [reflexivity|]. now rewrite <- app_assoc.
Qed.

(** What a call has issued by its end. *)
Ltac since_start :=
  unfold issued_since; simpl; rewrite <- ?app_assoc; rewrite drop_app_length; simpl.

(** C7. Every completion request a call of sendMessage issues goes by
    POST to the completion endpoint with the serialised payload
    { contents: [...] } whose elements are the cached messages in cache
    order, each as { role, parts: [{ text }] }, followed by the new user
    message; and once the user message is committed the request is
    issued. *)
Theorem completion_payload_is_history_then_input (env : Env) (w : World) :
  send_rejected (ui w) = false ->
  let out := run (handleSendMessage app (ui w)) env w in
  let entry (r : Role) (t : value) :=
    JObj [(lit "role", JStr (role_string r));
          (lit "parts", JArr [JObj [(lit "text", t)]])] in
  let payload :=
    JObj [(lit "contents",
           JArr (map (fun m => entry (role (m_data m)) (text (m_data m)))
                     (messages (ui w))
                 ++ [entry role_user (JStr (trim (input (ui w))))]))] in
  (forall st url init,
      (st, ReqFetch url init) ∈ issued_since w out.1 ->
      url = apiUrl /\ method init = lit "POST"
      /\ headers init = [(lit "Content-Type", lit "application/json")]
      /\ body init = JSON_stringify payload)
  /\ (forall i, addDoc_settles env (adds w) = inr i ->
      exists st url init, (st, ReqFetch url init) ∈ issued_since w out.1).
Proof.
  intros Hpass. enter_send Hpass u chatId.
  split.
  - intros st url init.
    settle; since_start; intros Hin;
      repeat (apply elem_of_cons in Hin as [Hin|Hin];
              [first [discriminate Hin | injection Hin as -> -> ->; auto]|]);
      now apply elem_of_nil in Hin.
  - intros i Hw.
    settle; since_start; do 3 eexists;
      apply elem_of_cons; right; apply elem_of_cons; left; reflexivity.
Qed.

Ltac exists_first u chatId :=
  eexists; exists u, chatId; eexists;
  split; [eassumption|]; split; [eassumption|]; split; reflexivity.

(** The first request of a call that passed its guard is the write of
    the user message, and [setInput] and [setIsLoading] have been called
    by then. *)
Lemma sendMessage_first_request (env : Env) (w : World) :
  send_rejected (ui w) = false ->
  exists u chatId rest,
    user (ui w) = Some u /\ activeChatId (ui w) = Some chatId
    /\ issued_since w (run (handleSendMessage app (ui w)) env w).1 =
         (set_isLoading true (set_input [] (ui w)),
          ReqAddDoc (messagesCollectionPath app u chatId)
            (MessageDoc {| text := JStr (trim (input (ui w)));
                           role := role_user;
                           timestamp := clock env (nows w) |})) :: rest.
Proof.
  intros Hpass. enter_send Hpass u chatId.
  exists u, chatId.
  settle; since_start; eexists; (split; [eassumption|]); (split; [eassumption|]);
    reflexivity.
Qed.

(** C9. A call of sendMessage that passed its guard calls setInput("")
    before it issues the write of the user message, but the input on the
    page is not yet cleared at that moment: the write is issued with the
    call's own state still shown, the submitted text included.  The
    cleared input is shown from the moment the call waits for that
    write, at every later request of the call, and in the state the call
    ends in, whichever way the write, the completion request and the
    later writes settle. *)
Theorem sendMessage_clears_input_for_good (env : Env) (w : World) :
  send_rejected (ui w) = false ->
  let out := run (handleSendMessage app (ui w)) env w in
  let seen := exposed (handleSendMessage app (ui w)) env (ui w) w in
  exists u chatId,
    user (ui w) = Some u /\ activeChatId (ui w) = Some chatId
    /\ let write :=
         ReqAddDoc (messagesCollectionPath app u chatId)
           (MessageDoc {| text := JStr (trim (input (ui w))); role := role_user;
                          timestamp := clock env (nows w) |}) in
       (exists later, seen = (ui w, write) :: later
                      /\ Forall (fun o => input o.1 = []) later)
       /\ input (ui w) <> []
       /\ (exists st rest, issued_since w out.1 = (st, write) :: rest
                           /\ input st = [])
       /\ seen.*2 = (issued_since w out.1).*2
       /\ input (ui out.1) = [].
Proof.
  intros Hpass. cbv zeta.
  destruct (send_accepted _ Hpass) as (u & chatId & Hu & Ha & Ht & _).
  exists u, chatId. split; [assumption|]. split; [assumption|].
  split; [|split; [|split; [|split]]].
  - unfold handleSendMessage. rewrite Hpass, Hu, Ha. simpl.
    eexists. split; [reflexivity|].
    destruct (addDoc_settles env (adds w)) as [e|i]; simpl; [constructor|].
    apply exposed_leaves_input; [|reflexivity|reflexivity].
    apply leaves_input_try_finally; [|now split].
    apply leaves_input_try_catch;
      [apply leaves_input_send_try|apply leaves_input_send_catch].
  - intros Hi. apply Ht. rewrite Hi. reflexivity.
  - destruct (sendMessage_first_request env w Hpass)
      as (u' & chatId' & rest & Hu' & Ha' & Hfirst).
    rewrite Hu in Hu'. injection Hu' as <-.
    rewrite Ha in Ha'. injection Ha' as <-.
    do 2 eexists. split; [exact Hfirst|reflexivity].
  - pose proof (exposed_requests (handleSendMessage app (ui w)) env (ui w) w) as Hr.
    unfold issued_since. rewrite fmap_drop, Hr.
    rewrite <- (length_fmap snd (trace w)). now rewrite drop_app_length.
  - enter_send Hpass u' chatId'. settle; reflexivity.
Qed.

(** *** Thread creation and deletion *)


(** A deletion leaves the identity, the input and the loading flag as
    they are, and consumes no answer to a write. *)
Lemma handleDeleteChat_frame (env : Env) (w : World) (chatId : jsstring) :
  let out := run (handleDeleteChat app (ui w) chatId) env w in
  user (ui out.1) = user (ui w) /\ isLoading (ui out.1) = isLoading (ui w)
  /\ adds out.1 = adds w.
Proof.
  cbv zeta. unfold handleDeleteChat.
  destruct (user (ui w)) as [u|] eqn:Hu; simpl; [|now rewrite Hu].
  destruct (deleteDoc_settles env (deletes w)) as [e|[]]; simpl;
    [now rewrite Hu|].
  destruct (decide (activeChatId (ui w) = Some chatId)); simpl; [|now rewrite Hu].
  destruct (filter _ (chats (ui w))); simpl; now rewrite Hu.
Qed.

(** An empty push whose thread creation the store accepts ends with the
    new thread selected and the loading flag down, whatever the flag was
    when the push arrived. *)
Lemma empty_push_lowers_the_flag
    (env : Env) (w : World) (u : FirebaseUser) (i : jsstring) :
  user (ui w) = Some u -> addDoc_settles env (adds w) = inr i ->
  let out := run (onChatsSnapshot app (ui w) []) env w in
  user (ui out.1) = Some u /\ activeChatId (ui out.1) = Some i
  /\ isLoading (ui out.1) = false.
Proof.
  intros Hu Hadd. cbv zeta. unfold onChatsSnapshot, handleNewChat. rewrite Hu.
  rewrite andb_false_r. simpl. rewrite Hadd. simpl. auto.
Qed.

(** C1. The loading flag does not keep sends apart.  A send that passed
    its guard and whose user message the store accepted waits for the
    completion with the flag up.  If the selected thread is then
    deleted and the store pushes an empty chat list, the thread creation
    the push triggers lowers the flag when it settles, although the send
    is still waiting; with new text typed, a second call of sendMessage
    passes the guard and issues its own write of a user message, in the
    newly created thread. *)
Theorem sendMessage_admits_a_second_send_in_flight
    (env : Env) (w : World) (text m i : jsstring) :
  send_rejected (ui w) = false ->
  addDoc_settles env (adds w) = inr m ->
  addDoc_settles env (S (adds w)) = inr i ->
  i <> [] ->
  trim text <> [] ->
  exists u chatId,
    user (ui w) = Some u /\ activeChatId (ui w) = Some chatId
    /\ let first := start (handleSendMessage app (ui w)) env w in
       let pending := advance first.2 env first.1 in
       let deleted := (run (handleDeleteChat app (ui pending.1) chatId) env pending.1).1 in
       let pushed := (run (onChatsSnapshot app (ui deleted) []) env deleted).1 in
       let typed := with_ui (set_input text) pushed in
       let second := run (handleSendMessage app (ui typed)) env typed in
       (exists init k, pending.2 = Awaiting (Fetch apiUrl init) k)
       /\ isLoading (ui pending.1) = true
       /\ isLoading (ui deleted) = true
       /\ isLoading (ui pushed) = false
       /\ send_rejected (ui typed) = false
       /\ second <> (typed, inr tt)
       /\ exists st rest,
            issued_since typed second.1 =
              (st, ReqAddDoc (messagesCollectionPath app u i)
                     (MessageDoc {| text := JStr (trim text); role := role_user;
                                    timestamp := clock env (nows typed) |})) :: rest.
Proof.
  intros Hpass Hm Hi Hne Htext.
  destruct (send_accepted _ Hpass) as (u & chatId & Hu & Ha & _ & _).
  exists u, chatId. split; [assumption|]. split; [assumption|]. cbv zeta.
  destruct (advance_handleSendMessage (ui w) u chatId m env w Hpass Hu Ha Hm)
    as (Hfirst & init & k & Hpending).
  rewrite Hpending. rewrite Hfirst. cbn [fst snd].
  set (w1 := settle_add _ _ _ _).
  assert (Hu1 : user (ui w1) = Some u) by exact Hu.
  assert (Hl1 : isLoading (ui w1) = true) by reflexivity.
  assert (Ha1 : adds w1 = S (adds w)) by reflexivity.
  destruct (handleDeleteChat_frame env w1 chatId) as (Hu2 & Hl2 & Ha2).
  set (w2 := (run (handleDeleteChat app (ui w1) chatId) env w1).1) in *.
  rewrite Hu1 in Hu2. rewrite Hl1 in Hl2. rewrite Ha1 in Ha2.
  rewrite <- Ha2 in Hi.
  destruct (empty_push_lowers_the_flag env w2 u i Hu2 Hi) as (Hu3 & Ha3 & Hl3).
  set (w3 := (run (onChatsSnapshot app (ui w2) []) env w2).1) in *.
  assert (Hpass' : send_rejected (ui (with_ui (set_input text) w3)) = false).
  { unfold send_rejected. simpl. rewrite Hu3, Ha3, Hl3. simpl.
    destruct (trim text); [contradiction|]. destruct i; [contradiction|].
    reflexivity. }
  destruct (sendMessage_first_request env (with_ui (set_input text) w3) Hpass')
    as (u' & chatId' & rest & Hu' & Ha' & Hreq).
  simpl in Hu', Ha'. rewrite Hu3 in Hu'. injection Hu' as <-.
  rewrite Ha3 in Ha'. injection Ha' as <-.
  split; [eauto|]. split; [assumption|]. split; [assumption|].
  split; [assumption|]. split; [assumption|]. split.
  - intros Hnoop. rewrite Hnoop in Hreq. unfold issued_since in Hreq.
    simpl in Hreq. rewrite drop_all in Hreq. discriminate Hreq.
  - do 2 eexists. exact Hreq.
Qed.

(** C5. A push of the chat list, delivered for a resolved identity,
    replaces the cached list by the pushed one.  When the pushed list is
    empty the callback issues the write of a default thread, titled
    "New Chat" and created now; if the store accepts the write the
    thread is in the store and becomes the selection, and if the store
    rejects it the error is logged and no thread is created. *)
Theorem chats_push_replaces_cache_and_requests_default
    (env : Env) (w : World) (u : FirebaseUser) (docs : list (jsstring * ChatData)) :
  user (ui w) = Some u ->
  let out := run (onChatsSnapshot app (ui w) docs) env w in
  let path := chatsCollectionPath app u in
  let newChat := ChatDoc {| title := lit "New Chat"; createdAt := clock env (nows w) |} in
  chats (ui out.1) = map (fun doc => {| c_id := doc.1; c_data := doc.2 |}) docs
  /\ (docs = [] ->
      (exists st rest, issued_since w out.1 = (st, ReqAddDoc path newChat) :: rest)
      /\ (forall i, addDoc_settles env (adds w) = inr i ->
          store out.1 = store w ++ [(doc_path path i, newChat)]
          /\ activeChatId (ui out.1) = Some i)
      /\ (forall e, addDoc_settles env (adds w) = inl e ->
          store out.1 = store w
          /\ issued_since w out.1 =
               [(set_isLoading true (set_chats [] (ui w)), ReqAddDoc path newChat);
                (set_isLoading true (set_chats [] (ui w)),
                 ReqLog (lit "Error creating new chat:") e)])).
Proof.
  intros Hu. cbv zeta. split.
  - unfold onChatsSnapshot, handleNewChat. rewrite Hu.
    destruct docs as [|d ds].
    + rewrite andb_false_r. simpl.
      now destruct (addDoc_settles env (adds w)).
    + simpl length. replace (0 <? S (length (map _ ds))) with true by reflexivity.
      rewrite andb_true_r. destruct (no_chat (activeChatId (ui w))); reflexivity.
  - intros ->. unfold onChatsSnapshot, handleNewChat. rewrite Hu.
    rewrite andb_false_r. simpl. repeat split.
    + destruct (addDoc_settles env (adds w)); since_start; eauto.
    + rewrite H. reflexivity.
    + rewrite H. reflexivity.
    + rewrite H. reflexivity.
    + rewrite H. now since_start.
Qed.

(** C6. A deleteThread call made with a resolved identity: when the
    store accepts the deletion of the selected thread, the selection
    becomes the first of the cached threads other than the deleted one,
    or none when there is no other; that thread is the next remaining
    one in list order when the deleted thread heads the cached list.
    When the store rejects the deletion, the selection stays; and the
    deletion of a thread that is not the selected one never changes the
    selection. *)
Theorem deleteThread_reselects
    (env : Env) (w : World) (u : FirebaseUser) (chatId : jsstring) :
  user (ui w) = Some u ->
  let out := run (handleDeleteChat app (ui w) chatId) env w in
  let first_other := head (filter (fun ch => c_id ch ≠ chatId) (chats (ui w))) in
  (activeChatId (ui w) = Some chatId ->
   deleteDoc_settles env (deletes w) = inr tt ->
   activeChatId (ui out.1) = c_id <$> first_other)
  /\ (forall ch rest, chats (ui w) = ch :: rest -> c_id ch = chatId ->
      first_other = next_remaining chatId (chats (ui w)))
  /\ (forall e, deleteDoc_settles env (deletes w) = inl e ->
      activeChatId (ui out.1) = activeChatId (ui w))
  /\ (activeChatId (ui w) ≠ Some chatId ->
      activeChatId (ui out.1) = activeChatId (ui w)).
Proof.
  intros Hu. cbv zeta. unfold handleDeleteChat. rewrite Hu.
  split; [|split; [|split]].
  - set (remaining := filter (fun ch => c_id ch ≠ chatId) (chats (ui w))).
    intros Hsel Hdel. simpl. rewrite Hdel. simpl.
    destruct (decide (activeChatId (ui w) = Some chatId)) as [_|Hne]; [|contradiction].
    destruct remaining as [|ch rest]; reflexivity.
  - intros ch rest -> Hch. unfold next_remaining. simpl.
    destruct (decide (c_id ch = chatId)) as [_|Hne]; [|contradiction].
    rewrite filter_cons_False by (intros Hne; now apply Hne).
    now destruct (filter _ rest).
  - intros e Hdel. simpl. rewrite Hdel. reflexivity.
  - intros Hne. simpl.
    destruct (deleteDoc_settles env (deletes w)) as [e|[]]; simpl; [reflexivity|].
    destruct (decide (activeChatId (ui w) = Some chatId)) as [Heq|_]; [contradiction|].
    reflexivity.
Qed.

(** *** Subscriptions *)

Lemma attached_None (h : nat) (ls : list (nat * Query)) :
  (forall l, l ∈ ls -> l.1 ≠ h) -> attached h ls = None.
Proof.
  intros H. unfold attached.
  destruct (filter (fun l => l.1 = h) ls) as [|l ls'] eqn:Hf; [reflexivity|].
  assert (Hl : l ∈ filter (fun l => l.1 = h) ls) by (rewrite Hf; left).
  apply list_elem_of_filter in Hl as [Hl1 Hl2]. now apply H in Hl2.
Qed.

Lemma elem_of_message_listeners (r : Runtime) (h : nat) (path : jsstring) :
  (h, path) ∈ message_listeners r <-> (h, MessagesQuery path) ∈ listeners r.
Proof.
  unfold message_listeners. rewrite list_elem_of_omap. split.
  - intros ([h' q] & Hin & Hq). simpl in Hq.
    destruct q; [discriminate|]. now injection Hq as -> ->.
  - intros Hin. now exists (h, MessagesQuery path).
Qed.

(** With nothing for the message effect to clean up, no message
    listener is attached. *)
Lemma no_cleanup_no_listener (r : Runtime) :
  consistent r -> messages_cleanup r = None -> message_listeners r = [].
Proof.
  intros (_ & _ & Hml) Hc. apply elem_of_nil_inv. intros [h path] Hl.
  apply Hml in Hl. congruence.
Qed.

Lemma mounted_consistent : consistent mounted.
Proof.
  split; [|split]; simpl.
  - intros l Hl. now apply elem_of_nil in Hl.
  - discriminate.
  - intros h path Hl. now apply elem_of_nil in Hl.
Qed.

(** Handlers do not reach the listeners. *)
Lemma with_world_consistent (w : World) (r : Runtime) :
  consistent r -> consistent (with_world w r).
Proof. intros H. exact H. Qed.

Lemma cleanup_chats_consistent (r : Runtime) :
  consistent r ->
  let r' := cleanup_chats r in
  consistent r' /\ world r' = world r
  /\ messages_cleanup r' = messages_cleanup r
  /\ next_handle r' = next_handle r.
Proof.
  intros (Hlt & Hcl & Hml). cbv zeta. unfold cleanup_chats.
  destruct (chats_cleanup r) as [h|]; [|now repeat split].
  split; [|now repeat split].
  split; [|split]; simpl; try assumption.
  - intros l Hl. apply list_elem_of_filter in Hl as [_ Hl]. now apply Hlt.
  - intros h' path Hl. apply elem_of_message_listeners in Hl. simpl in Hl.
    apply list_elem_of_filter in Hl as [_ Hl].
    now apply Hml with path, elem_of_message_listeners.
Qed.

Lemma cleanup_messages_consistent (r : Runtime) :
  consistent r ->
  let r' := cleanup_messages r in
  consistent r' /\ world r' = world r
  /\ messages_cleanup r' = None
  /\ next_handle r' = next_handle r
  /\ (forall h, messages_cleanup r = Some h -> detached h r').
Proof.
  intros Hr. pose proof Hr as (Hlt & Hcl & Hml). cbv zeta. unfold cleanup_messages.
  destruct (messages_cleanup r) as [h|] eqn:Hc.
  - split; [|split; [|split; [|split]]]; try reflexivity.
    + split; [|split]; simpl.
      * intros l Hl. apply list_elem_of_filter in Hl as [_ Hl]. now apply Hlt.
      * discriminate.
      * intros h' path Hl. apply elem_of_message_listeners in Hl. simpl in Hl.
        apply list_elem_of_filter in Hl as [Hne Hl]. simpl in Hne.
        apply elem_of_message_listeners, Hml in Hl. congruence.
    + intros h' [= <-] l Hl. simpl in Hl.
      now apply list_elem_of_filter in Hl as [Hne _].
  - split; [exact Hr|]. repeat split; try assumption. discriminate.
Qed.

Lemma chats_effect_consistent (r : Runtime) :
  consistent r ->
  let r' := chats_effect app r in
  consistent r' /\ world r' = world r
  /\ messages_cleanup r' = messages_cleanup r
  /\ next_handle r <= next_handle r'
  /\ (forall h, h < next_handle r -> detached h r -> detached h r').
Proof.
  intros (Hlt & Hcl & Hml). cbv zeta. unfold chats_effect.
  destruct (bool_decide (user (ui (world r)) = None) || negb (isAuthReady (ui (world r)))).
  { split; [now repeat split|]. now repeat split. }
  destruct (user (ui (world r))) as [u|].
  2: { split; [now repeat split|]. now repeat split. }
  split; [|split; [|split; [|split]]]; simpl; try reflexivity; try lia.
  - split; [|split]; simpl.
    + intros l Hl. apply elem_of_app in Hl as [Hl|Hl].
      * apply Hlt in Hl. lia.
      * apply list_elem_of_singleton in Hl as ->. simpl. lia.
    + intros h Hh. apply Hcl in Hh. lia.
    + intros h path Hl. apply elem_of_message_listeners in Hl. simpl in Hl.
      apply elem_of_app in Hl as [Hl|Hl].
      * now apply Hml with path, elem_of_message_listeners.
      * apply list_elem_of_singleton in Hl. discriminate.
  - intros h Hh Hd l Hl. simpl in Hl. apply elem_of_app in Hl as [Hl|Hl].
    + now apply Hd.
    + apply list_elem_of_singleton in Hl as ->. simpl. lia.
Qed.

(** The body of the message effect, run with its previous listener
    detached: either the cache is cleared or a listener on the selected
    thread's messages is attached. *)
Lemma messages_effect_consistent (r : Runtime) :
  consistent r -> messages_cleanup r = None ->
  let r' := messages_effect app r in
  (forall h path, (h, path) ∈ message_listeners r' ->
     messages_cleanup r' = Some h
     /\ exists u chatId,
          user (ui (world r)) = Some u /\ activeChatId (ui (world r)) = Some chatId
          /\ path = messagesCollectionPath app u chatId)
  /\ (activeChatId (ui (world r)) = None -> messages (ui (world r')) = [])
  /\ activeChatId (ui (world r')) = activeChatId (ui (world r))
  /\ user (ui (world r')) = user (ui (world r))
  /\ consistent r'
  /\ (forall h, h < next_handle r -> detached h r -> detached h r').
Proof.
  intros Hr Hc. pose proof (no_cleanup_no_listener r Hr Hc) as Hempty.
  assert (Hnone : forall h path, (h, MessagesQuery path) ∈ listeners r -> False).
  { intros h path Hl. apply elem_of_message_listeners in Hl.
    rewrite Hempty in Hl. now apply elem_of_nil in Hl. }
  destruct Hr as (Hlt & Hcl & Hml). cbv zeta. unfold messages_effect.
  destruct (no_chat (activeChatId (ui (world r))) || bool_decide (user (ui (world r)) = None))
    eqn:Hguard.
  - split; [|split; [|split; [|split; [|split]]]]; simpl; try reflexivity.
    + intros h path Hl. apply elem_of_message_listeners in Hl. simpl in Hl.
      now apply Hnone in Hl.
    + split; [|split]; simpl; try assumption; try discriminate.
      intros h path Hl. apply elem_of_message_listeners in Hl. simpl in Hl.
      now apply Hnone in Hl.
    + intros h _ Hd. exact Hd.
  - apply orb_false_elim in Hguard as [Hchat Huser].
    destruct (activeChatId (ui (world r))) as [chatId|] eqn:Ha; [|discriminate].
    destruct (user (ui (world r))) as [u|] eqn:Hu; [|discriminate].
    split; [|split; [|split; [|split; [|split]]]]; simpl.
    + intros h path Hl. apply elem_of_message_listeners in Hl. simpl in Hl.
      apply elem_of_app in Hl as [Hl|Hl]; [now apply Hnone in Hl|].
      apply list_elem_of_singleton in Hl. injection Hl as -> ->.
      split; [reflexivity|]. now exists u, chatId.
    + discriminate.
    + exact Ha.
    + exact Hu.
    + split; [|split]; simpl.
      * intros l Hl. apply elem_of_app in Hl as [Hl|Hl].
        -- apply Hlt in Hl. lia.
        -- apply list_elem_of_singleton in Hl as ->. simpl. lia.
      * intros h [= <-]. lia.
      * intros h path Hl. apply elem_of_message_listeners in Hl. simpl in Hl.
        apply elem_of_app in Hl as [Hl|Hl]; [now apply Hnone in Hl|].
        apply list_elem_of_singleton in Hl. now injection Hl as -> _.
    + intros h Hh Hd l Hl. simpl in Hl. apply elem_of_app in Hl as [Hl|Hl].
      * now apply Hd.
      * apply list_elem_of_singleton in Hl as ->. simpl. lia.
Qed.

(** The invariant holds after every commit, hence after every event. *)
Lemma commit_consistent (prev : State) (r : Runtime) :
  consistent r -> consistent (commit app prev r).
Proof.
  intros Hr. unfold commit.
  destruct (bool_decide (chats_deps prev ≠ chats_deps (ui (world r))));
    destruct (bool_decide (messages_deps prev ≠ messages_deps (ui (world r)))).
  - destruct (cleanup_chats_consistent r Hr) as (H1 & _).
    destruct (cleanup_messages_consistent _ H1) as (H2 & _ & Hc2 & _).
    destruct (chats_effect_consistent _ H2) as (H3 & _ & Hc3 & _).
    rewrite Hc2 in Hc3. now apply messages_effect_consistent.
  - destruct (cleanup_chats_consistent r Hr) as (H1 & _).
    now apply chats_effect_consistent.
  - destruct (cleanup_messages_consistent r Hr) as (H2 & _ & Hc2 & _).
    now apply messages_effect_consistent.
  - assumption.
Qed.

Lemma dispatch_consistent (p : Proc unit) (env : Env) (r : Runtime) :
  consistent r -> consistent (dispatch app p env r).
Proof. intros Hr. now apply commit_consistent, with_world_consistent. Qed.

Lemma push_messages_consistent (h : nat) (docs : list (jsstring * MessageData))
    (env : Env) (r : Runtime) :
  consistent r -> consistent (push_messages app h docs env r).
Proof.
  intros Hr. unfold push_messages.
  destruct (attached h (listeners r)) as [[path|path]|]; try assumption.
  now apply dispatch_consistent.
Qed.

Lemma push_chats_consistent (h : nat) (docs : list (jsstring * ChatData))
    (env : Env) (r : Runtime) :
  consistent r -> consistent (push_chats app h docs env r).
Proof.
  intros Hr. unfold push_chats.
  destruct (attached h (listeners r)) as [[path|path]|]; try assumption.
  now apply dispatch_consistent.
Qed.

(** C8. Whenever an event changes the selected thread id, the commit
    that follows detaches the listener of the previous message
    subscription (a snapshot pushed to it afterwards is dropped) and
    leaves at most one message listener attached, the one on the newly
    selected thread's messages; when the new selection is none, no
    message listener is attached and the message cache is empty. *)
Theorem selection_change_swaps_message_subscription
    (p : Proc unit) (env : Env) (r : Runtime) :
  consistent r ->
  let r' := dispatch app p env r in
  activeChatId (ui (world r')) ≠ activeChatId (ui (world r)) ->
  (forall h, messages_cleanup r = Some h ->
     attached h (listeners r') = None
     /\ forall docs env', push_messages app h docs env' r' = r')
  /\ (forall h path, (h, path) ∈ message_listeners r' ->
      messages_cleanup r' = Some h
      /\ exists u chatId,
           user (ui (world r')) = Some u
           /\ activeChatId (ui (world r')) = Some chatId
           /\ path = messagesCollectionPath app u chatId)
  /\ (activeChatId (ui (world r')) = None ->
      message_listeners r' = [] /\ messages (ui (world r')) = [])
  /\ consistent r'.
Proof.
  intros Hr. cbv zeta. unfold dispatch.
  set (r0 := with_world (run p env (world r)).1 r).
  assert (Hr0 : consistent r0) by now apply with_world_consistent.
  unfold commit.
  set (r1 := if bool_decide (chats_deps (ui (world r)) ≠ chats_deps (ui (world r0)))
             then cleanup_chats r0 else r0).
  assert (H1 : consistent r1 /\ world r1 = world r0
               /\ messages_cleanup r1 = messages_cleanup r
               /\ next_handle r1 = next_handle r).
  { unfold r1. destruct (bool_decide _).
    - destruct (cleanup_chats_consistent r0 Hr0) as (Ha & Hb & Hc & Hd).
      split; [exact Ha|]. split; [exact Hb|]. split; [exact Hc|exact Hd].
    - split; [assumption|]. now repeat split. }
  destruct H1 as (Hr1 & Hw1 & Hc1 & Hn1).
  destruct (bool_decide (messages_deps (ui (world r)) ≠ messages_deps (ui (world r0))))
    eqn:Hchanged.
  2: { intros Hsel. exfalso. apply Hsel.
       apply bool_decide_eq_false in Hchanged. apply dec_stable in Hchanged.
       unfold messages_deps in Hchanged. injection Hchanged as Ha _.
       transitivity (activeChatId (ui (world r0))); [|symmetry; exact Ha].
       destruct (bool_decide _); [|now rewrite Hw1].
       destruct (chats_effect_consistent r1 Hr1) as (_ & Hw & _).
       cbv zeta in Hw. now rewrite Hw, Hw1. }
  intros Hsel.
  destruct (cleanup_messages_consistent r1 Hr1) as (Hr2 & Hw2 & Hc2 & Hn2 & Hd2).
  cbv zeta in *. set (r2 := cleanup_messages r1) in *.
  set (r3 := if bool_decide (chats_deps (ui (world r)) ≠ chats_deps (ui (world r0)))
             then chats_effect app r2 else r2).
  assert (H3 : consistent r3 /\ world r3 = world r2
               /\ messages_cleanup r3 = None
               /\ next_handle r2 <= next_handle r3
               /\ forall h, h < next_handle r2 -> detached h r2 -> detached h r3).
  { unfold r3. destruct (bool_decide _).
    - destruct (chats_effect_consistent r2 Hr2) as (Hr3 & Hw3 & Hc3 & Hn3 & Hd3).
      cbv zeta in *. rewrite Hc2 in Hc3.
      split; [exact Hr3|]. split; [exact Hw3|]. split; [exact Hc3|].
      split; [exact Hn3|exact Hd3].
    - split; [assumption|]. split; [reflexivity|]. split; [assumption|].
      split; [lia|]. now intros h _ Hd. }
  destruct H3 as (Hr3 & Hw3 & Hc3 & Hn3 & Hd3).
  destruct (messages_effect_consistent r3 Hr3 Hc3)
    as (Hnew & Hclear & Hact & Husr & Hcons & Hd4).
  cbv zeta in *. set (r' := messages_effect app r3) in *.
  split; [|split; [|split]].
  - intros h Hh.
    assert (Hlt : h < next_handle r2).
    { rewrite Hn2, Hn1. destruct Hr as (_ & Hcl & _). now apply Hcl. }
    assert (Hdet : detached h r').
    { apply Hd4; [lia|]. apply Hd3; [assumption|]. apply Hd2. now rewrite Hc1. }
    apply attached_None in Hdet.
    split; [assumption|]. intros docs env'. unfold push_messages. now rewrite Hdet.
  - intros h path Hl. destruct (Hnew h path Hl) as (Hc & u & chatId & Hu & Ha & Hp).
    split; [assumption|]. exists u, chatId.
    rewrite Husr, Hact. now repeat split.
  - intros Hnone. rewrite Hact in Hnone. split; [|now apply Hclear].
    apply elem_of_nil_inv. intros [h path] Hl.
    destruct (Hnew h path Hl) as (_ & u & chatId & _ & Ha & _). congruence.
  - assumption.
Qed.

(** *** More on the send pipeline *)

(** As [settle], asking the surroundings for their answers in the order
    the handler does. *)
Ltac answers :=
  repeat (cbv zeta; simpl;
          first
            [ rewrite run_try_catch
            | rewrite run_send_try
            | rewrite run_send_catch
            | match goal with
              | H : ?x = _ |- context [match ?x with _ => _ end] => rewrite H
              | H : ?x = _ |- context [if ?x then _ else _] => rewrite H
              | |- context [match addDoc_settles ?e ?n with _ => _ end] =>
                  destruct (addDoc_settles e n) eqn:?
              | |- context [match fetch_settles ?e ?n with _ => _ end] =>
                  destruct (fetch_settles e n) eqn:?
              | |- context [if ok ?r then _ else _] => destruct (ok r) eqn:?
              | |- context [match json ?r with _ => _ end] => destruct (json r) eqn:?
              | |- context [match modelResponse_of ?b with _ => _ end] =>
                  destruct (modelResponse_of b) eqn:?
              end ]);
  cbv zeta; simpl.

(** X1. The prompt is stored before the completion is asked for: a call
    that passed its guard first issues the write of the user message;
    if the store rejects it the call issues nothing else and the store
    is as before; if the store accepts it the very next request is the
    one completion request of the call. *)
Theorem sendMessage_stores_the_prompt_before_asking (env : Env) (w : World) :
  send_rejected (ui w) = false ->
  let out := run (handleSendMessage app (ui w)) env w in
  exists u chatId,
    user (ui w) = Some u /\ activeChatId (ui w) = Some chatId
    /\ let st := set_isLoading true (set_input [] (ui w)) in
       let write :=
         ReqAddDoc (messagesCollectionPath app u chatId)
           (MessageDoc {| text := JStr (trim (input (ui w))); role := role_user;
                          timestamp := clock env (nows w) |}) in
       (forall e, addDoc_settles env (adds w) = inl e ->
          issued_since w out.1 = [(st, write)] /\ store out.1 = store w)
       /\ (forall i, addDoc_settles env (adds w) = inr i ->
          exists init rest,
            issued_since w out.1 = (st, write) :: (st, ReqFetch apiUrl init) :: rest
            /\ Forall (fun o => forall url init', o.2 <> ReqFetch url init') rest).
Proof.
  intros Hpass. cbv zeta.
  destruct (send_accepted _ Hpass) as (u & chatId & Hu & Ha & _ & _).
  exists u, chatId. split; [assumption|]. split; [assumption|].
  rewrite (run_handleSendMessage _ u chatId _ _ Hpass Hu Ha).
  split.
  - intros e Hw. settle. split; [|reflexivity]. now since_start.
  - intros i Hw.
    settle; since_start; do 2 eexists; (split; [reflexivity|]);
      repeat constructor; discriminate.
Qed.

(** X2. A call of sendMessage never touches the identity, the thread
    cache, the selection, the message cache or the ready flag, whether it
    is turned away or runs, and however the store and the endpoint
    answer: what it stores reaches the message cache only through the
    subscription. *)
Theorem sendMessage_leaves_the_caches_alone (env : Env) (w : World) :
  let out := run (handleSendMessage app (ui w)) env w in
  user (ui out.1) = user (ui w)
  /\ chats (ui out.1) = chats (ui w)
  /\ activeChatId (ui out.1) = activeChatId (ui w)
  /\ messages (ui out.1) = messages (ui w)
  /\ isAuthReady (ui out.1) = isAuthReady (ui w).
Proof.
  cbv zeta. destruct (send_rejected (ui w)) eqn:Hpass.
  - unfold handleSendMessage. rewrite Hpass. simpl. auto.
  - enter_send Hpass u chatId. settle; auto.
Qed.

(** X3. A call of sendMessage only ever appends to the store, at most
    two documents, each a message document in the message collection of
    the thread that was selected when the call was made. *)
Theorem sendMessage_only_appends_to_the_thread (env : Env) (w : World) :
  send_rejected (ui w) = false ->
  let out := run (handleSendMessage app (ui w)) env w in
  exists u chatId added,
    user (ui w) = Some u /\ activeChatId (ui w) = Some chatId
    /\ store out.1 = store w ++ added
    /\ length added <= 2
    /\ Forall (fun d => exists i m,
                 d = (doc_path (messagesCollectionPath app u chatId) i, MessageDoc m))
         added.
Proof.
  intros Hpass. cbv zeta.
  destruct (send_accepted _ Hpass) as (u & chatId & Hu & Ha & _ & _).
  exists u, chatId.
  rewrite (run_handleSendMessage _ u chatId _ _ Hpass Hu Ha).
  answers;
    first [ exists []; rewrite app_nil_r; repeat split; solve [auto | constructor]
          | rewrite <- ?app_assoc; eexists;
            (split; [assumption|]); (split; [assumption|]); (split; [reflexivity|]);
            (split; [simpl; lia|]); repeat constructor; eauto ].
Qed.

(** X4. Whatever makes the [try] block fail before it writes (the
    request is rejected, the body does not parse, the extraction
    throws), the failure becomes a model turn: with both writes accepted
    the call fulfils and stores the user turn and then "Error: "
    followed by the error's message, or by "An unknown error occurred."
    when what was thrown is not an Error. *)
Theorem sendMessage_reports_what_the_try_block_throws
    (env : Env) (w : World) (e : exn) (i1 i2 : jsstring) :
  send_rejected (ui w) = false ->
  addDoc_settles env (adds w) = inr i1 ->
  addDoc_settles env (S (adds w)) = inr i2 ->
  (fetch_settles env (fetches w) = inl e
   \/ exists resp,
        fetch_settles env (fetches w) = inr resp /\ ok resp = true
        /\ (json resp = inl e
            \/ exists body, json resp = inr body /\ modelResponse_of body = inl e)) ->
  exists u chatId,
    user (ui w) = Some u /\ activeChatId (ui w) = Some chatId
    /\ let path := messagesCollectionPath app u chatId in
       let out := run (handleSendMessage app (ui w)) env w in
       out.2 = inr tt
       /\ store out.1 = store w ++
            [(doc_path path i1,
              MessageDoc {| text := JStr (trim (input (ui w))); role := role_user;
                            timestamp := clock env (nows w) |});
             (doc_path path i2,
              MessageDoc {| text := JStr (lit "Error: " ++ error_text e);
                            role := role_model;
                            timestamp := clock env (S (nows w)) |})].
Proof.
  intros Hpass Hw1 Hw2 Hcause.
  destruct (send_accepted _ Hpass) as (u & chatId & Hu & Ha & _ & _).
  exists u, chatId. split; [assumption|]. split; [assumption|].
  rewrite (run_handleSendMessage _ u chatId _ _ Hpass Hu Ha).
  destruct Hcause as [Hf|(resp & Hf & Hok & [Hj|(body & Hj & Hm)])];
    settle; (split; [reflexivity|]); now rewrite <- app_assoc.
Qed.

(** X5. When the store accepts the user turn but rejects the write of
    the model's reply, the reply is dropped and the rejection is reported
    in its place by a third write: with that one accepted the call
    fulfils and stores the user turn and the error turn. *)
Theorem sendMessage_reports_a_rejected_reply
    (env : Env) (w : World) (resp : Response) (body t : value) (e : exn)
    (i1 i3 : jsstring) :
  send_rejected (ui w) = false ->
  addDoc_settles env (adds w) = inr i1 ->
  fetch_settles env (fetches w) = inr resp ->
  ok resp = true ->
  json resp = inr body ->
  modelResponse_of body = inr t ->
  addDoc_settles env (S (adds w)) = inl e ->
  addDoc_settles env (S (S (adds w))) = inr i3 ->
  exists u chatId,
    user (ui w) = Some u /\ activeChatId (ui w) = Some chatId
    /\ let path := messagesCollectionPath app u chatId in
       let out := run (handleSendMessage app (ui w)) env w in
       out.2 = inr tt
       /\ store out.1 = store w ++
            [(doc_path path i1,
              MessageDoc {| text := JStr (trim (input (ui w))); role := role_user;
                            timestamp := clock env (nows w) |});
             (doc_path path i3,
              MessageDoc {| text := JStr (lit "Error: " ++ error_text e);
                            role := role_model;
                            timestamp := clock env (S (S (nows w))) |})].
Proof.
  intros Hpass Hw1 Hf Hok Hj Hm Hw2 Hw3.
  destruct (send_accepted _ Hpass) as (u & chatId & Hu & Ha & _ & _).
  exists u, chatId. split; [assumption|]. split; [assumption|].
  rewrite (run_handleSendMessage _ u chatId _ _ Hpass Hu Ha).
  settle. split; [reflexivity|]. now rewrite <- app_assoc.
Qed.

(** *** The extraction of the reply *)

(** X6. The guard of lines 253-255 never throws on a body, a
    [candidates] or a first candidate's [content] that is a boolean, a
    number or a string, nor on a body that is an array: the reply is the
    fallback text. *)
Theorem extraction_falls_back_on_scalars :
  (forall body, scalar body = true \/ (exists items, body = JArr items) ->
     modelResponse_of body = inr (JStr fallbackResponse))
  /\ (forall fields candidates,
       own fields (lit "candidates") = Some candidates -> scalar candidates = true ->
       modelResponse_of (JObj fields) = inr (JStr fallbackResponse))
  /\ (forall fields candidate rest content_,
       own fields (lit "candidates") = Some (JArr (JObj candidate :: rest)) ->
       own candidate (lit "content") = Some content_ -> scalar content_ = true ->
       modelResponse_of (JObj fields) = inr (JStr fallbackResponse)).
Proof.
  unfold modelResponse_of. split; [|split].
  - intros body [H|[items ->]]; [|reflexivity].
    destruct body; try discriminate; reflexivity.
  - intros fields candidates Hc Hs. simpl. rewrite Hc. simpl.
    destruct candidates as [| |b|x|s| |]; try discriminate; simpl.
    + now destruct b.
    + now destruct x.
    + now destruct s.
  - intros fields candidate rest content_ Hc Hk Hs. simpl. rewrite Hc. simpl.
    rewrite Hk. simpl.
    destruct content_ as [| |b|x|s| |]; try discriminate; simpl.
    + now destruct b.
    + now destruct x.
    + now destruct s.
Qed.

(** X7. The guard has holes where it reads through [null]: a body that
    is [null], a first candidate that is [null] and a first part that is
    [null] each make the extraction throw the engine's TypeError instead
    of falling back. *)
Theorem extraction_throws_on_null :
  modelResponse_of JNull
    = inl (ErrorObj (TypeError_message JNull (lit "candidates")))
  /\ (forall fields rest,
       own fields (lit "candidates") = Some (JArr (JNull :: rest)) ->
       modelResponse_of (JObj fields)
         = inl (ErrorObj (TypeError_message JNull (lit "content"))))
  /\ (forall fields candidate rest content_ prest,
       own fields (lit "candidates") = Some (JArr (JObj candidate :: rest)) ->
       own candidate (lit "content") = Some (JObj content_) ->
       own content_ (lit "parts") = Some (JArr (JNull :: prest)) ->
       modelResponse_of (JObj fields)
         = inl (ErrorObj (TypeError_message JNull (lit "text")))).
Proof.
  unfold modelResponse_of. split; [reflexivity|]. split.
  - intros fields rest Hc. simpl. rewrite Hc. reflexivity.
  - intros fields candidate rest content_ prest Hc Hk Hp. simpl.
    rewrite Hc. simpl. rewrite Hk. simpl. rewrite Hp. reflexivity.
Qed.

(** X8. The guard does not look at [text] itself: when the first part is
    an object without a [text] field the extracted reply is [undefined],
    not the fallback. *)
Theorem extraction_yields_undefined_without_text
    (fields candidate content_ part : list (jsstring * value)) (rest prest : list value) :
  own fields (lit "candidates") = Some (JArr (JObj candidate :: rest)) ->
  own candidate (lit "content") = Some (JObj content_) ->
  own content_ (lit "parts") = Some (JArr (JObj part :: prest)) ->
  own part (lit "text") = None ->
  modelResponse_of (JObj fields) = inr JUndefined.
Proof.
  intros Hc Hk Hp Ht. unfold modelResponse_of. simpl.
  rewrite Hc. simpl. rewrite Hk. simpl. rewrite Hp. simpl. now rewrite Ht.
Qed.

(** *** More on thread creation, pushes and deletion *)

(** X9. A createThread call made with a resolved identity never throws
    and always ends with the loading flag down; it leaves the identity,
    the caches and the input alone; an accepted write adds exactly the
    new thread's document and selects it, a rejected one leaves the store
    and the selection as they were. *)
Theorem createThread_always_fulfils (env : Env) (w : World) (u : FirebaseUser) :
  user (ui w) = Some u ->
  let out := run (handleNewChat app (ui w)) env w in
  out.2 = inr tt
  /\ isLoading (ui out.1) = false
  /\ user (ui out.1) = user (ui w) /\ chats (ui out.1) = chats (ui w)
  /\ messages (ui out.1) = messages (ui w) /\ input (ui out.1) = input (ui w)
  /\ match addDoc_settles env (adds w) with
     | inr i =>
         store out.1 = store w ++
           [(doc_path (chatsCollectionPath app u) i,
             ChatDoc {| title := lit "New Chat"; createdAt := clock env (nows w) |})]
         /\ activeChatId (ui out.1) = Some i
     | inl _ =>
         store out.1 = store w /\ activeChatId (ui out.1) = activeChatId (ui w)
     end.
Proof.
  intros Hu. cbv zeta. unfold handleNewChat. rewrite Hu. simpl.
  destruct (addDoc_settles env (adds w)); simpl; now repeat split.
Qed.

(** X10. A push of a non-empty chat list never throws and asks nothing
    of the store.  With nothing selected it selects the first pushed
    thread; with a thread selected it keeps the selection, whether or not
    that thread is in the pushed list. *)
Theorem chats_push_selects_only_when_nothing_is_selected
    (env : Env) (w : World) (d : jsstring * ChatData) (ds : list (jsstring * ChatData)) :
  let out := run (onChatsSnapshot app (ui w) (d :: ds)) env w in
  out.2 = inr tt
  /\ store out.1 = store w
  /\ issued_since w out.1 = []
  /\ isLoading (ui out.1) = isLoading (ui w)
  /\ (no_chat (activeChatId (ui w)) = true -> activeChatId (ui out.1) = Some d.1)
  /\ (no_chat (activeChatId (ui w)) = false ->
      activeChatId (ui out.1) = activeChatId (ui w)).
Proof.
  cbv zeta. unfold onChatsSnapshot. simpl length.
  replace (0 <? S (length (map _ ds))) with true by reflexivity.
  rewrite andb_true_r.
  destruct (no_chat (activeChatId (ui w))); simpl;
    (split; [reflexivity|]); (split; [reflexivity|]);
    (split; [unfold issued_since; simpl; apply drop_all|]);
    (split; [reflexivity|]); split; intros; first [reflexivity | discriminate].
Qed.

Lemma chatDocPath_in_collection (u : FirebaseUser) (chatId : jsstring) :
  chatDocPath app u chatId = chatsCollectionPath app u ++ lit "/" ++ chatId.
Proof.
  unfold chatDocPath, chatsCollectionPath. rewrite <- !app_assoc.
  rewrite (app_assoc (lit "/chats") (lit "/") chatId).
  replace (lit "/chats" ++ lit "/") with (lit "/chats/"); [reflexivity|].
  vm_compute. reflexivity.
Qed.

Lemma messagesCollectionPath_under_chat (u : FirebaseUser) (chatId : jsstring) :
  messagesCollectionPath app u chatId = chatDocPath app u chatId ++ lit "/messages".
Proof.
  unfold messagesCollectionPath, chatDocPath. now rewrite <- !app_assoc.
Qed.

(** X11. An accepted deleteThread removes the thread's own document and
    nothing else: every other document, the thread's messages among
    them, is still in the store afterwards. *)
Theorem deleteThread_leaves_the_messages_behind
    (env : Env) (w : World) (u : FirebaseUser) (chatId : jsstring) :
  user (ui w) = Some u ->
  deleteDoc_settles env (deletes w) = inr tt ->
  let out := run (handleDeleteChat app (ui w) chatId) env w in
  (forall data, (chatDocPath app u chatId, data) ∉ store out.1)
  /\ (forall d, d ∈ store w -> d.1 <> chatDocPath app u chatId -> d ∈ store out.1)
  /\ (forall i data,
       (doc_path (messagesCollectionPath app u chatId) i, data) ∈ store w ->
       (doc_path (messagesCollectionPath app u chatId) i, data) ∈ store out.1).
Proof.
  intros Hu Hdel. cbv zeta.
  assert (Hstore : store (run (handleDeleteChat app (ui w) chatId) env w).1
                   = filter (fun d => d.1 <> chatDocPath app u chatId) (store w)).
  { unfold handleDeleteChat. rewrite Hu. simpl. rewrite Hdel. simpl.
    destruct (decide (activeChatId (ui w) = Some chatId)); [|reflexivity].
    destruct (filter _ (chats (ui w))); reflexivity. }
  rewrite Hstore. split; [|split].
  - intros data Hin. apply list_elem_of_filter in Hin as [Hne _]. now apply Hne.
  - intros d Hin Hne. now apply list_elem_of_filter.
  - intros i data Hin. apply list_elem_of_filter. split; [|assumption].
    simpl. rewrite messagesCollectionPath_under_chat. unfold doc_path.
    rewrite <- app_assoc. intros Heq.
    rewrite <- (app_nil_r (chatDocPath app u chatId)) in Heq at 2.
    apply app_inv_head in Heq. apply app_eq_nil in Heq as [Heq _].
    vm_compute in Heq. discriminate Heq.
Qed.

(** X12. A deleteThread call made with a resolved identity never throws,
    whatever the store answers: it issues the one deletion of the
    thread's document, logs a rejection, and leaves the thread cache,
    the message cache, the input and the loading flag alone. *)
Theorem deleteThread_always_fulfils
    (env : Env) (w : World) (u : FirebaseUser) (chatId : jsstring) :
  user (ui w) = Some u ->
  let out := run (handleDeleteChat app (ui w) chatId) env w in
  out.2 = inr tt
  /\ chats (ui out.1) = chats (ui w) /\ messages (ui out.1) = messages (ui w)
  /\ input (ui out.1) = input (ui w) /\ isLoading (ui out.1) = isLoading (ui w)
  /\ issued_since w out.1 =
       (ui w, ReqDeleteDoc (chatDocPath app u chatId))
       :: match deleteDoc_settles env (deletes w) with
          | inl e => [(ui w, ReqLog (lit "Error deleting chat:") e)]
          | inr _ => []
          end.
Proof.
  intros Hu. cbv zeta. unfold handleDeleteChat. rewrite Hu. simpl.
  destruct (deleteDoc_settles env (deletes w)) as [e|[]]; simpl.
  - repeat split. now since_start.
  - destruct (decide (activeChatId (ui w) = Some chatId)).
    + destruct (filter _ (chats (ui w))); simpl; repeat split; now since_start.
    + simpl. repeat split. now since_start.
Qed.

(** X13. After an accepted deletion of the selected thread the selection
    is never the deleted thread: it is none or the id of a cached thread
    other than the deleted one. *)
Theorem deleteThread_never_keeps_the_deleted_selected
    (env : Env) (w : World) (u : FirebaseUser) (chatId : jsstring) :
  user (ui w) = Some u ->
  activeChatId (ui w) = Some chatId ->
  deleteDoc_settles env (deletes w) = inr tt ->
  let out := run (handleDeleteChat app (ui w) chatId) env w in
  activeChatId (ui out.1) <> Some chatId
  /\ (forall i, activeChatId (ui out.1) = Some i ->
      exists ch, ch ∈ chats (ui w) /\ c_id ch = i /\ i <> chatId).
Proof.
  intros Hu Hsel Hdel. cbv zeta. unfold handleDeleteChat. rewrite Hu.
  simpl. rewrite Hdel. simpl.
  destruct (decide (activeChatId (ui w) = Some chatId)) as [_|Hne]; [|contradiction].
  destruct (filter (fun ch => c_id ch <> chatId) (chats (ui w))) as [|ch rest] eqn:Hf;
    simpl.
  - split; [discriminate|]. discriminate.
  - assert (Hin : ch ∈ filter (fun ch => c_id ch <> chatId) (chats (ui w)))
      by (rewrite Hf; left).
    apply list_elem_of_filter in Hin as [Hne Hin].
    split; [now intros [= Heq]|].
    intros i [= <-]. now exists ch.
Qed.

(** X14. Every store request the handlers issue for a resolved identity
    addresses a path under that identity's chat collection. *)
Theorem handlers_stay_in_the_identitys_partition
    (env : Env) (w : World) (u : FirebaseUser) (chatId : jsstring)
    (docs : list (jsstring * ChatData)) :
  user (ui w) = Some u ->
  let inside (p : Proc unit) :=
    Forall (fun o => forall path, store_path o.2 = Some path ->
                       chatsCollectionPath app u `prefix_of` path)
      (issued_since w (run p env w).1) in
  inside (handleNewChat app (ui w))
  /\ inside (onChatsSnapshot app (ui w) docs)
  /\ inside (handleDeleteChat app (ui w) chatId)
  /\ inside (handleSendMessage app (ui w)).
Proof.
  intros Hu. cbv zeta.
  assert (Hchats : chatsCollectionPath app u `prefix_of` chatsCollectionPath app u)
    by reflexivity.
  assert (Hdoc : chatsCollectionPath app u `prefix_of` chatDocPath app u chatId).
  { rewrite chatDocPath_in_collection. now eexists. }
  assert (Hnew : Forall (fun o => forall path, store_path o.2 = Some path ->
                           chatsCollectionPath app u `prefix_of` path)
                   (issued_since w (run (handleNewChat app (ui w)) env w).1)).
  { unfold handleNewChat. rewrite Hu. simpl.
    destruct (addDoc_settles env (adds w)); since_start;
      repeat constructor; simpl; intros path [= <-]; assumption. }
  split; [exact Hnew|]. split; [|split].
  - unfold onChatsSnapshot, handleNewChat. rewrite Hu.
    destruct docs as [|d ds].
    + rewrite andb_false_r. simpl.
      destruct (addDoc_settles env (adds w)); since_start;
        repeat constructor; simpl; intros path [= <-]; assumption.
    + simpl length. replace (0 <? S (length (map _ ds))) with true by reflexivity.
      rewrite andb_true_r.
      destruct (no_chat (activeChatId (ui w))); simpl;
        unfold issued_since; simpl; rewrite drop_all; constructor.
  - unfold handleDeleteChat. rewrite Hu. simpl.
    destruct (deleteDoc_settles env (deletes w)) as [e|[]]; simpl.
    + since_start. repeat constructor; simpl; intros path [= <-]; assumption.
    + destruct (decide (activeChatId (ui w) = Some chatId)).
      * destruct (filter _ (chats (ui w))); simpl; since_start;
          repeat constructor; simpl; intros path [= <-]; assumption.
      * simpl. since_start.
        repeat constructor; simpl; intros path [= <-]; assumption.
  - destruct (send_rejected (ui w)) eqn:Hpass.
    + unfold handleSendMessage. rewrite Hpass. simpl.
      unfold issued_since. rewrite drop_all. constructor.
    + destruct (send_accepted _ Hpass) as (u' & chat & Hu' & Ha & _ & _).
      rewrite (run_handleSendMessage _ u' chat _ _ Hpass Hu' Ha).
      assert (u' = u) as -> by congruence.
      assert (Hmsg : chatsCollectionPath app u `prefix_of` messagesCollectionPath app u chat).
      { rewrite messagesCollectionPath_under_chat, chatDocPath_in_collection.
        rewrite <- !app_assoc. now eexists. }
      answers; since_start; repeat constructor; simpl;
        first [discriminate | intros path [= <-]; assumption].
Qed.

(** *** The subscriptions between events *)

Lemma unsubscribe_own (h : nat) (q : Query) :
  filter (fun l : nat * Query => l.1 <> h) [(h, q)] = [].
Proof.
  rewrite filter_cons. simpl.
  destruct (decide (h <> h)) as [Hne|_]; [now contradiction Hne|reflexivity].
Qed.

Lemma unsubscribe_other (h h' : nat) (q : Query) :
  h' <> h -> filter (fun l : nat * Query => l.1 <> h) [(h', q)] = [(h', q)].
Proof.
  intros Hne. rewrite filter_cons. simpl.
  destruct (decide (h' <> h)) as [_|Heq]; [reflexivity|contradiction].
Qed.

Lemma holds_cleanup_chats (r : Runtime) (co mo : option (nat * jsstring)) :
  holds r co mo -> holds (cleanup_chats r) None mo.
Proof.
  intros (Hl & Hc & Hm & Hco & Hmo & Hne). unfold cleanup_chats. rewrite Hc.
  destruct co as [[h path]|]; simpl.
  - split; [|split; [|split; [|split; [|split]]]]; simpl;
      try assumption; try discriminate; try reflexivity.
    unfold unsubscribe. rewrite Hl, filter_app.
    unfold chat_entry. rewrite unsubscribe_own. simpl.
    destruct mo as [[h' path']|]; [|reflexivity]. unfold message_entry.
    rewrite unsubscribe_other; [reflexivity|].
    intros ->. now apply (Hne (h, path) (h, path')).
  - split; [|split; [|split; [|split; [|split]]]]; try assumption; discriminate.
Qed.

Lemma holds_cleanup_messages (r : Runtime) (co mo : option (nat * jsstring)) :
  holds r co mo -> holds (cleanup_messages r) co None.
Proof.
  intros (Hl & Hc & Hm & Hco & Hmo & Hne). unfold cleanup_messages. rewrite Hm.
  destruct mo as [[h path]|]; simpl.
  - split; [|split; [|split; [|split; [|split]]]]; simpl;
      try assumption; try discriminate; try reflexivity.
    unfold unsubscribe. rewrite Hl, filter_app.
    unfold message_entry at 1. rewrite unsubscribe_own.
    rewrite !app_nil_r.
    destruct co as [[h' path']|]; [|reflexivity]. unfold chat_entry.
    rewrite unsubscribe_other; [reflexivity|].
    now apply (Hne (h', path') (h, path)).
  - split; [|split; [|split; [|split; [|split]]]]; try assumption; discriminate.
Qed.

Lemma holds_chats_effect (r : Runtime) (mo : option (nat * jsstring)) :
  holds r None mo ->
  holds (chats_effect app r) (chats_subscription app (ui (world r)) (next_handle r)) mo.
Proof.
  intros (Hl & Hc & Hm & Hco & Hmo & Hne).
  unfold chats_effect, chats_subscription.
  destruct (bool_decide (user (ui (world r)) = None) || negb (isAuthReady (ui (world r)))).
  { split; [|split; [|split; [|split; [|split]]]]; simpl;
      try assumption; try discriminate; reflexivity. }
  destruct (user (ui (world r))) as [u|]; simpl.
  2: { split; [|split; [|split; [|split; [|split]]]]; try assumption; discriminate. }
  split; [|split; [|split; [|split; [|split]]]]; simpl; try assumption.
  - simpl in Hl. rewrite Hl. symmetry. apply Permutation_cons_append.
  - reflexivity.
  - intros hp [= <-]. simpl. lia.
  - intros hp Hp. apply Hmo in Hp. lia.
  - intros hp hp' [= <-] Hp. apply Hmo in Hp. simpl. lia.
Qed.

Lemma holds_messages_effect (r : Runtime) (co : option (nat * jsstring)) :
  holds r co None ->
  holds (messages_effect app r) co
    (messages_subscription app (ui (world r)) (next_handle r)).
Proof.
  intros (Hl & Hc & Hm & Hco & Hmo & Hne).
  unfold messages_effect, messages_subscription.
  destruct (no_chat (activeChatId (ui (world r)))
            || bool_decide (user (ui (world r)) = None)).
  { split; [|split; [|split; [|split; [|split]]]]; simpl;
      try assumption; try discriminate; reflexivity. }
  destruct (activeChatId (ui (world r))) as [chatId|]; simpl.
  2: { split; [|split; [|split; [|split; [|split]]]]; try assumption; discriminate. }
  destruct (user (ui (world r))) as [u|]; simpl.
  2: { split; [|split; [|split; [|split; [|split]]]]; try assumption; discriminate. }
  split; [|split; [|split; [|split; [|split]]]]; simpl; try assumption.
  - simpl in Hl. rewrite app_nil_r in Hl. now rewrite Hl.
  - reflexivity.
  - intros hp Hp. apply Hco in Hp. lia.
  - intros hp [= <-]. simpl. lia.
  - intros hp hp' Hp [= <-]. apply Hco in Hp. simpl. lia.
Qed.

(** The subscriptions an effect sets up depend on its dependencies only. *)
Lemma chats_subscription_deps (s s' : State) (h : nat) :
  chats_deps s = chats_deps s' ->
  chats_subscription app s h = chats_subscription app s' h.
Proof.
  unfold chats_deps, chats_subscription. intros [= Hu Hr _]. now rewrite Hu, Hr.
Qed.

Lemma messages_subscription_deps (s s' : State) (h : nat) :
  messages_deps s = messages_deps s' ->
  messages_subscription app s h = messages_subscription app s' h.
Proof.
  unfold messages_deps, messages_subscription. intros [= Ha Hu]. now rewrite Hu, Ha.
Qed.

Lemma world_cleanup_chats (r : Runtime) : world (cleanup_chats r) = world r.
Proof. unfold cleanup_chats. now destruct (chats_cleanup r). Qed.

Lemma world_cleanup_messages (r : Runtime) : world (cleanup_messages r) = world r.
Proof. unfold cleanup_messages. now destruct (messages_cleanup r). Qed.

Lemma world_chats_effect (r : Runtime) : world (chats_effect app r) = world r.
Proof.
  unfold chats_effect.
  destruct (_ || _); [reflexivity|]. now destruct (user (ui (world r))).
Qed.

Lemma deps_messages_effect (r : Runtime) :
  chats_deps (ui (world (messages_effect app r))) = chats_deps (ui (world r))
  /\ messages_deps (ui (world (messages_effect app r))) = messages_deps (ui (world r)).
Proof.
  unfold messages_effect.
  destruct (_ || _); [now split|].
  destruct (activeChatId (ui (world r))); [|now split].
  now destruct (user (ui (world r))).
Qed.

(** After a commit the listeners are those of the state committed. *)
Lemma commit_subscribed (prev : State) (r : Runtime) :
  subscribed_for app prev r ->
  subscribed_for app (ui (world (commit app prev r))) (commit app prev r).
Proof.
  intros (hc & hm & H). unfold commit.
  destruct (bool_decide (chats_deps prev <> chats_deps (ui (world r)))) eqn:Hcd;
    destruct (bool_decide (messages_deps prev <> messages_deps (ui (world r)))) eqn:Hmd.
  - apply holds_cleanup_chats, holds_cleanup_messages, holds_chats_effect,
      holds_messages_effect in H.
    rewrite world_chats_effect in H.
    rewrite world_cleanup_messages, world_cleanup_chats in H.
    destruct (deps_messages_effect (chats_effect app (cleanup_messages (cleanup_chats r))))
      as [Hc Hm].
    rewrite world_chats_effect, world_cleanup_messages, world_cleanup_chats in Hc, Hm.
    do 2 eexists.
    rewrite (chats_subscription_deps _ _ _ Hc), (messages_subscription_deps _ _ _ Hm).
    exact H.
  - apply bool_decide_eq_false in Hmd. apply dec_stable in Hmd.
    apply holds_cleanup_chats, holds_chats_effect in H.
    rewrite world_chats_effect, world_cleanup_chats in *.
    rewrite (messages_subscription_deps _ _ _ Hmd) in H.
    do 2 eexists. exact H.
  - apply bool_decide_eq_false in Hcd. apply dec_stable in Hcd.
    apply holds_cleanup_messages, holds_messages_effect in H.
    rewrite world_cleanup_messages in H.
    destruct (deps_messages_effect (cleanup_messages r)) as [Hc Hm].
    rewrite world_cleanup_messages in Hc, Hm.
    rewrite (chats_subscription_deps _ _ _ Hcd) in H.
    do 2 eexists.
    rewrite (chats_subscription_deps _ _ _ Hc), (messages_subscription_deps _ _ _ Hm).
    exact H.
  - apply bool_decide_eq_false in Hcd, Hmd. apply dec_stable in Hcd, Hmd.
    rewrite (chats_subscription_deps _ _ _ Hcd),
      (messages_subscription_deps _ _ _ Hmd) in H.
    do 2 eexists. exact H.
Qed.

Lemma reachable_subscribed (r : Runtime) :
  reachable app r -> subscribed_for app (ui (world r)) r.
Proof.
  induction 1 as [|firebaseUser signIn r _ IH|p env r _ IH].
  - exists 0, 0. unfold chats_subscription, messages_subscription. simpl.
    split; [|split; [|split; [|split; [|split]]]]; simpl;
      try reflexivity; discriminate.
  - apply commit_subscribed. exact IH.
  - apply commit_subscribed. exact IH.
Qed.

Lemma message_listeners_holds (r : Runtime) (co mo : option (nat * jsstring)) :
  holds r co mo ->
  message_listeners r = match mo with Some hp => [hp] | None => [] end.
Proof.
  intros (Hl & _). unfold message_listeners.
  assert (H : omap (fun l : nat * Query =>
                      match l.2 with
                      | MessagesQuery path => Some (l.1, path)
                      | ChatsQuery _ => None
                      end) (listeners r)
              ≡ₚ match mo with Some hp => [hp] | None => [] end).
  { rewrite Hl. now destruct co as [[h p]|], mo as [[h' p']|]. }
  destruct mo.
  - now apply Permutation_singleton_r.
  - now apply Permutation_nil_r.
Qed.

Lemma chat_listeners_holds (r : Runtime) (co mo : option (nat * jsstring)) :
  holds r co mo ->
  chat_listeners r = match co with Some hp => [hp] | None => [] end.
Proof.
  intros (Hl & _). unfold chat_listeners.
  assert (H : omap (fun l : nat * Query =>
                      match l.2 with
                      | ChatsQuery path => Some (l.1, path)
                      | MessagesQuery _ => None
                      end) (listeners r)
              ≡ₚ match co with Some hp => [hp] | None => [] end).
  { rewrite Hl. now destruct co as [[h p]|], mo as [[h' p']|]. }
  destruct co.
  - now apply Permutation_singleton_r.
  - now apply Permutation_nil_r.
Qed.

(** X15. After any sequence of events there is at most one message
    subscription, and it follows the selection: with an identity and a
    non-empty selected id exactly one message listener is attached, on
    that thread's messages, and it is the one the effect will clean up;
    without an identity or without a selection none is attached. *)
Theorem message_subscription_follows_the_selection (r : Runtime) :
  reachable app r ->
  let s := ui (world r) in
  (forall u chatId,
     user s = Some u -> activeChatId s = Some chatId -> chatId <> [] ->
     exists h, message_listeners r = [(h, messagesCollectionPath app u chatId)]
               /\ messages_cleanup r = Some h)
  /\ (user s = None \/ no_chat (activeChatId s) = true ->
      message_listeners r = [] /\ messages_cleanup r = None).
Proof.
  intros Hr. cbv zeta. destruct (reachable_subscribed r Hr) as (hc & hm & H).
  rewrite (message_listeners_holds _ _ _ H).
  destruct H as (_ & _ & Hm & _). rewrite Hm. unfold messages_subscription. split.
  - intros u chatId -> -> Hne. exists hm.
    destruct chatId; [contradiction|]. simpl. now split.
  - intros [-> | ->]; simpl; [|now split].
    now destruct (no_chat (activeChatId (ui (world r)))).
Qed.

(** X16. After any sequence of events the chat-list subscription follows
    the identity: once an identity is resolved and the ready flag is up,
    exactly one chat-list listener is attached, on that identity's chat
    collection; before that none is. *)
Theorem chat_list_subscription_follows_the_identity (r : Runtime) :
  reachable app r ->
  let s := ui (world r) in
  (forall u, user s = Some u -> isAuthReady s = true ->
     exists h, chat_listeners r = [(h, chatsCollectionPath app u)]
               /\ chats_cleanup r = Some h)
  /\ (user s = None \/ isAuthReady s = false ->
      chat_listeners r = [] /\ chats_cleanup r = None).
Proof.
  intros Hr. cbv zeta. destruct (reachable_subscribed r Hr) as (hc & hm & H).
  rewrite (chat_listeners_holds _ _ _ H).
  destruct H as (_ & Hc & _). rewrite Hc. unfold chats_subscription. split.
  - intros u -> ->. exists hc. simpl. now split.
  - intros [-> | ->]; simpl; [now split|].
    rewrite orb_true_r. now split.
Qed.

(** X17. As long as no identity is resolved nothing is attached to the
    store at all, whatever events have occurred. *)
Theorem nothing_is_attached_without_identity (r : Runtime) :
  reachable app r -> user (ui (world r)) = None -> listeners r = [].
Proof.
  intros Hr Hu. destruct (reachable_subscribed r Hr) as (hc & hm & Hl & _).
  unfold chats_subscription, messages_subscription in Hl. rewrite Hu in Hl.
  simpl in Hl. rewrite orb_true_r in Hl. simpl in Hl.
  now apply Permutation_nil_r.
Qed.

(** X18. A snapshot pushed to a message listener only replaces the
    message cache: it asks nothing of the store, changes neither the
    selection nor any other state, and leaves every subscription as it
    is; pushed to a handle that is not attached it changes nothing. *)
Theorem message_push_only_replaces_the_cache
    (h : nat) (docs : list (jsstring * MessageData)) (env : Env) (r : Runtime) :
  let r' := push_messages app h docs env r in
  listeners r' = listeners r /\ next_handle r' = next_handle r
  /\ chats_cleanup r' = chats_cleanup r /\ messages_cleanup r' = messages_cleanup r
  /\ store (world r') = store (world r) /\ trace (world r') = trace (world r)
  /\ ui (world r')
     = match attached h (listeners r) with
       | Some (MessagesQuery _) =>
           set_messages (map (fun doc => {| m_id := doc.1; m_data := doc.2 |}) docs)
             (ui (world r))
       | _ => ui (world r)
       end.
Proof.
  cbv zeta. unfold push_messages.
  destruct (attached h (listeners r)) as [[path|path]|]; try now repeat split.
  unfold dispatch, commit, onMessagesSnapshot. simpl.
  rewrite !bool_decide_eq_false_2 by (intros H; now apply H).
  now repeat split.
Qed.

Lemma commit_activeChatId (prev : State) (r : Runtime) :
  activeChatId (ui (world (commit app prev r))) = activeChatId (ui (world r)).
Proof.
  unfold commit.
  destruct (bool_decide (chats_deps prev <> chats_deps (ui (world r))));
    destruct (bool_decide (messages_deps prev <> messages_deps (ui (world r))));
    try match goal with
        | |- context [messages_effect app ?x] =>
            destruct (deps_messages_effect x) as [_ [= -> _]]
        end;
    rewrite ?world_chats_effect, ?world_cleanup_messages, ?world_cleanup_chats;
    reflexivity.
Qed.

Lemma next_handle_cleanup_chats (r : Runtime) :
  next_handle (cleanup_chats r) = next_handle r.
Proof. unfold cleanup_chats. now destruct (chats_cleanup r). Qed.

Lemma next_handle_cleanup_messages (r : Runtime) :
  next_handle (cleanup_messages r) = next_handle r.
Proof. unfold cleanup_messages. now destruct (messages_cleanup r). Qed.

Lemma next_handle_chats_effect (r : Runtime) :
  next_handle r <= next_handle (chats_effect app r).
Proof.
  unfold chats_effect. destruct (_ || _); [reflexivity|].
  destruct (user (ui (world r))); simpl; lia.
Qed.

(** X19. A change of the selected thread id re-creates the chat-list
    subscription as well, because the selected id is among the
    dependencies of the chat-list effect: the listener attached before
    the change is detached and is no longer the one to clean up. *)
Theorem selection_change_resubscribes_the_chat_list
    (p : Proc unit) (env : Env) (r : Runtime) :
  reachable app r ->
  let r' := dispatch app p env r in
  activeChatId (ui (world r')) <> activeChatId (ui (world r)) ->
  forall h, chats_cleanup r = Some h ->
    attached h (listeners r') = None /\ chats_cleanup r' <> Some h.
Proof.
  intros Hr. cbv zeta. intros Hsel h Hh.
  destruct (reachable_subscribed r Hr) as (hc & hm & H).
  assert (Hlt : h < next_handle r).
  { destruct H as (_ & Hc & _ & Hco & _). rewrite Hh in Hc.
    destruct (chats_subscription app (ui (world r)) hc) as [[h' path]|] eqn:Hs;
      [|discriminate].
    injection Hc as ->. now apply (Hco (h', path)). }
  unfold dispatch in *. rewrite commit_activeChatId in Hsel. simpl in Hsel.
  set (r0 := with_world (run p env (world r)).1 r) in *.
  assert (H0 : holds r0 (chats_subscription app (ui (world r)) hc)
                        (messages_subscription app (ui (world r)) hm)) by exact H.
  unfold commit.
  rewrite !bool_decide_eq_true_2.
  2: { intros Heq. apply Hsel. apply (f_equal snd) in Heq. symmetry. exact Heq. }
  2: { intros Heq. apply Hsel. apply (f_equal fst) in Heq. symmetry. exact Heq. }
  apply holds_cleanup_chats, holds_cleanup_messages, holds_chats_effect in H0.
  pose proof (holds_messages_effect _ _ H0) as H1.
  set (r2 := cleanup_messages (cleanup_chats r0)) in *.
  assert (Hn2 : next_handle r2 = next_handle r).
  { unfold r2. now rewrite next_handle_cleanup_messages, next_handle_cleanup_chats. }
  pose proof (next_handle_chats_effect r2) as Hn3.
  set (r3 := chats_effect app r2) in *.
  destruct H1 as (Hl & Hc & _).
  assert (Hfresh : forall l, l ∈ listeners (messages_effect app r3) -> l.1 <> h).
  { intros l Hin. rewrite Hl in Hin. apply elem_of_app in Hin as [Hin|Hin].
    - unfold chats_subscription in Hin.
      destruct (_ || _); [now apply elem_of_nil in Hin|].
      destruct (user (ui (world r2))); [|now apply elem_of_nil in Hin].
      apply list_elem_of_singleton in Hin as ->. simpl. lia.
    - unfold messages_subscription in Hin.
      destruct (_ || _); [now apply elem_of_nil in Hin|].
      destruct (activeChatId (ui (world r3))); [|now apply elem_of_nil in Hin].
      destruct (user (ui (world r3))); [|now apply elem_of_nil in Hin].
      apply list_elem_of_singleton in Hin as ->. simpl. lia. }
  split; [now apply attached_None|].
  rewrite Hc. unfold chats_subscription.
  destruct (_ || _); [discriminate|].
  destruct (user (ui (world r2))); [|discriminate].
  simpl. intros [= Heq]. lia.
Qed.

(** *** Identity and the input row *)

(** X20. The authentication callback never clears the identity or the
    ready flag and touches nothing else; whenever it fulfils the ready
    flag is up; and when the provider reports no user and the anonymous
    sign-in is rejected, the callback rejects and the state stays as it
    was, the loading screen included. *)
Theorem auth_callback_never_steps_back
    (firebaseUser : option FirebaseUser) (signIn : exn + unit) (s : State) :
  let out := onAuthStateChanged firebaseUser signIn s in
  (user s <> None -> user out.1 <> None)
  /\ (isAuthReady s = true -> isAuthReady out.1 = true)
  /\ (out.2 = inr tt -> renders_loading_screen out.1 = false)
  /\ (forall e, firebaseUser = None -> signIn = inl e -> out = (s, inl e))
  /\ chats out.1 = chats s /\ activeChatId out.1 = activeChatId s
  /\ messages out.1 = messages s /\ input out.1 = input s
  /\ isLoading out.1 = isLoading s.
Proof.
  cbv zeta. unfold onAuthStateChanged, renders_loading_screen.
  destruct firebaseUser as [u|]; [|destruct signIn as [e|[]]]; simpl;
    repeat split; try discriminate; try congruence; auto.
Qed.

(** X21. The send button and the handler agree.  Whenever the button is
    disabled, the Enter key, which does not look at the button, is
    turned away by the handler and the world stays as it was; whenever
    the button is enabled, an identity is resolved and a thread is
    selected, the handler's guard lets the send through.  Any other key,
    and Enter with Shift, starts nothing and keeps its default. *)
Theorem send_button_and_guard_agree (w : World) :
  (sendButton_disabled (ui w) = true ->
   forall event env,
     run (handleKeyDown event (handleSendMessage app (ui w))).2 env w = (w, inr tt))
  /\ (sendButton_disabled (ui w) = false ->
      user (ui w) <> None -> no_chat (activeChatId (ui w)) = false ->
      send_rejected (ui w) = false)
  /\ (forall event p,
       key event <> lit "Enter" \/ shiftKey event = true ->
       handleKeyDown event p = (false, Ret tt)).
Proof.
  unfold sendButton_disabled, handleKeyDown. split; [|split].
  - intros Hd event env.
    assert (Hrej : send_rejected (ui w) = true).
    { unfold send_rejected. apply orb_true_iff in Hd as [Hd|Hd]; rewrite Hd.
      - now rewrite orb_true_r.
      - reflexivity. }
    destruct (_ && _); simpl; [|reflexivity].
    unfold handleSendMessage. now rewrite Hrej.
  - intros Hd Hu Ha. unfold send_rejected.
    apply orb_false_elim in Hd as [-> ->]. rewrite Ha.
    destruct (user (ui w)); [reflexivity|contradiction].
  - intros event p [Hk| ->].
    + now rewrite bool_decide_eq_false_2.
    + now rewrite andb_false_r.
Qed.

End Properties.

(** ** The properties on closed scenarios *)

Transparent lit send_try send_catch.

Lemma sendMessage_rejected_is_noop_witness :
  whitespace_only (input (ui (typing "   ")))
  /\ run (handleSendMessage (E := scenario_engine) None (ui (typing "   "))) all_well
       (typing "   ") = (typing "   ", inr tt).
Proof.
  assert (H : whitespace_only (input (ui (typing "   ")))).
  { vm_compute. repeat constructor. }
  split; [exact H|].
  exact (proj1 (sendMessage_rejected_is_noop (E := scenario_engine) None all_well
                  (typing "   ") (or_introl H))).
Defined.

Lemma sendMessage_admits_a_second_send_in_flight_witness :
  send_rejected (ui in_only_thread) = false
  /\ (exists init k, first_send_pending.2 = Awaiting (Fetch apiUrl init) k)
  /\ isLoading (ui first_send_pending.1) = true
  /\ send_rejected (ui typed_again) = false
  /\ run (handleSendMessage (E := scenario_engine) None (ui typed_again)) all_well
       typed_again <> (typed_again, inr tt)
  /\ (store both_sends_done).*2 =
       [MessageDoc {| text := JStr (lit "hello"); role := role_user; timestamp := 100%N |};
        ChatDoc {| title := lit "New Chat"; createdAt := 101%N |};
        MessageDoc {| text := JStr (lit "again"); role := role_user; timestamp := 102%N |};
        MessageDoc {| text := JStr (lit "Hello"); role := role_model; timestamp := 103%N |};
        MessageDoc {| text := JStr (lit "Hello"); role := role_model; timestamp := 104%N |}].
Proof.
  split; [reflexivity|].
  destruct (sendMessage_admits_a_second_send_in_flight (E := scenario_engine) None
              all_well in_only_thread (lit "again") (lit "doc0") (lit "doc1")
              eq_refl eq_refl eq_refl)
    as (u & chatId & Hu & Ha & Hpending & Hup & _ & _ & Hpass & Hsecond & _).
  - vm_compute. discriminate.
  - vm_compute. discriminate.
  - injection Ha as <-.
    split; [exact Hpending|]. split; [exact Hup|]. split; [exact Hpass|].
    split; [exact Hsecond|]. vm_compute. reflexivity.
Defined.

Lemma sendMessage_user_write_rejected_stays_loading_witness :
  send_rejected (ui (typing "hi")) = false
  /\ addDoc_settles store_denies (adds (typing "hi")) = inl denied
  /\ isLoading
       (ui (run (handleSendMessage (E := scenario_engine) None (ui (typing "hi")))
              store_denies (typing "hi")).1) = true.
Proof.
  split; [reflexivity|]. split; [reflexivity|].
  exact (proj1 (proj2 (@sendMessage_user_write_rejected_stays_loading
                         scenario_engine None store_denies (typing "hi") denied
                         eq_refl eq_refl))).
Defined.

Lemma completion_failure_becomes_error_turn_witness :
  send_rejected (ui (typing " hi ")) = false
  /\ store (run (handleSendMessage (E := scenario_engine) None (ui (typing " hi ")))
              endpoint_down (typing " hi ")).1
     = [(lit "/artifacts/t3-chat-clone/users/alice/chats/a/messages/doc0",
         MessageDoc {| text := JStr (lit "hi"); role := role_user;
                       timestamp := 100%N |});
        (lit "/artifacts/t3-chat-clone/users/alice/chats/a/messages/doc1",
         MessageDoc {| text := JStr (lit "Error: API call failed with status: 500");
                       role := role_model; timestamp := 101%N |})].
Proof.
  split; [reflexivity|].
  destruct (completion_failure_becomes_error_turn (E := scenario_engine) None
              endpoint_down (typing " hi ")
              {| status := 500; json := inr JNull |}
              (lit "doc0") (lit "doc1") eq_refl eq_refl eq_refl eq_refl eq_refl)
    as (u & chatId & Hu & Ha & _ & Hs).
  injection Hu as <-. injection Ha as <-. exact Hs.
Defined.

Lemma completion_text_or_fallback_witness :
  send_rejected (ui (typing "hi")) = false
  /\ first_candidate_text hello_body = Some (JStr (lit "Hello"))
  /\ store (run (handleSendMessage (E := scenario_engine) None (ui (typing "hi")))
              all_well (typing "hi")).1
     = [(lit "/artifacts/t3-chat-clone/users/alice/chats/a/messages/doc0",
         MessageDoc {| text := JStr (lit "hi"); role := role_user;
                       timestamp := 100%N |});
        (lit "/artifacts/t3-chat-clone/users/alice/chats/a/messages/doc1",
         MessageDoc {| text := JStr (lit "Hello"); role := role_model;
                       timestamp := 101%N |})].
Proof.
  split; [reflexivity|]. split; [reflexivity|].
  destruct (completion_text_or_fallback (E := scenario_engine) None
              all_well (typing "hi")
              {| status := 200; json := inr hello_body |}
              hello_body (JStr (lit "Hello"))
              (lit "doc0") (lit "doc1") eq_refl eq_refl eq_refl eq_refl eq_refl
              eq_refl (or_introl eq_refl))
    as (u & chatId & Hu & Ha & _ & Hs).
  injection Hu as <-. injection Ha as <-. exact Hs.
Defined.

Lemma chats_push_replaces_cache_and_requests_default_witness :
  user (ui without_threads) = Some alice
  /\ let out := run (onChatsSnapshot (E := scenario_engine) None (ui without_threads) [])
                  all_well without_threads in
     chats (ui out.1) = []
     /\ store out.1
        = [(lit "/artifacts/t3-chat-clone/users/alice/chats/doc0",
            ChatDoc {| title := lit "New Chat"; createdAt := 100%N |})]
     /\ activeChatId (ui out.1) = Some (lit "doc0").
Proof.
  split; [reflexivity|].
  destruct (chats_push_replaces_cache_and_requests_default (E := scenario_engine) None
              all_well without_threads alice [] eq_refl) as (Hc & Hd).
  destruct (Hd eq_refl) as (_ & Hok & _).
  destruct (Hok (lit "doc0") eq_refl) as (Hs & Ha).
  exact (conj Hc (conj Hs Ha)).
Defined.

Lemma deleteThread_reselects_witness :
  user (ui on_middle_thread) = Some alice
  /\ activeChatId
       (ui (run (handleDeleteChat (E := scenario_engine) None (ui on_middle_thread) (lit "b"))
              all_well on_middle_thread).1) = Some (lit "a").
Proof.
  split; [reflexivity|].
  exact (proj1 (deleteThread_reselects (E := scenario_engine) None all_well
                  on_middle_thread alice (lit "b") eq_refl) eq_refl eq_refl).
Defined.

Lemma completion_payload_is_history_then_input_witness :
  send_rejected (ui (typing "hi")) = false
  /\ exists st url init,
       (st, ReqFetch url init)
         ∈ issued_since (typing "hi")
             (run (handleSendMessage (E := scenario_engine) None (ui (typing "hi")))
                all_well (typing "hi")).1.
Proof.
  split; [reflexivity|].
  exact (proj2 (completion_payload_is_history_then_input (E := scenario_engine) None
                  all_well (typing "hi") eq_refl) (lit "doc0") eq_refl).
Defined.

Lemma sendMessage_clears_input_for_good_witness :
  send_rejected (ui (typing "hi")) = false
  /\ (exists later,
        exposed (handleSendMessage (E := scenario_engine) None (ui (typing "hi")))
          endpoint_down (ui (typing "hi")) (typing "hi")
        = (ui (typing "hi"),
           ReqAddDoc (messagesCollectionPath None alice (lit "a"))
             (MessageDoc {| text := JStr (lit "hi"); role := role_user;
                            timestamp := 100%N |})) :: later
        /\ Forall (fun o => input o.1 = []) later)
  /\ input (ui (typing "hi")) = lit "hi"
  /\ input (ui (run (handleSendMessage (E := scenario_engine) None (ui (typing "hi")))
                  endpoint_down (typing "hi")).1) = [].
Proof.
  split; [reflexivity|].
  destruct (sendMessage_clears_input_for_good (E := scenario_engine) None
              endpoint_down (typing "hi") eq_refl)
    as (u & chatId & Hu & Ha & Hseen & _ & _ & _ & Hend).
  injection Hu as <-. injection Ha as <-.
  split; [exact Hseen|]. split; [reflexivity|exact Hend].
Defined.


Lemma viewing_first_consistent : consistent viewing_first.
Proof.
  apply dispatch_consistent. repeat split; simpl.
  - intros l Hl. now apply elem_of_nil in Hl.
  - discriminate.
  - intros h path Hl. now apply elem_of_nil in Hl.
Qed.

Lemma selection_change_swaps_message_subscription_witness :
  consistent viewing_first
  /\ message_listeners viewing_first
     = [(1, lit "/artifacts/t3-chat-clone/users/alice/chats/a/messages")]
  /\ let r' := dispatch None (selectChat (lit "b")) all_well
                 viewing_first in
     activeChatId (ui (world r')) ≠ activeChatId (ui (world viewing_first))
     /\ attached 1 (listeners r') = None
     /\ message_listeners r'
        = [(3, lit "/artifacts/t3-chat-clone/users/alice/chats/b/messages")].
Proof.
  split; [exact viewing_first_consistent|]. split; [reflexivity|].
  assert (Hsel : activeChatId
                   (ui (world (dispatch None (selectChat (lit "b"))
                                 all_well viewing_first)))
                 ≠ activeChatId (ui (world viewing_first))).
  { vm_compute. discriminate. }
  split; [exact Hsel|].
  split; [|reflexivity].
  exact (proj1 (proj1 (selection_change_swaps_message_subscription
                         None (selectChat (lit "b")) all_well viewing_first
                         viewing_first_consistent Hsel) 1 eq_refl)).
Defined.

(** C3, as stated, fails twice over: the stored user turn carries the
    trimmed input, not the text as typed; and when the store rejects the
    write of the error turn the call rejects with one new document. *)
Lemma error_turn_stated_fails :
  ~ error_turn_stated (E := scenario_engine) None endpoint_down (typing " hi ")
  /\ ~ error_turn_stated (E := scenario_engine) None second_write_denied (typing "hi").
Proof.
  split; intros H.
  - destruct (H _ eq_refl eq_refl) as (_ & p1 & t1 & p2 & t2 & reason & Hs).
    vm_compute in Hs. discriminate Hs.
  - destruct (H _ eq_refl eq_refl) as (Hr & _).
    vm_compute in Hr. discriminate Hr.
Qed.

(** C4, as stated, fails on a body that does not parse and on the body
    [null]: parsing, or reading [candidates], throws, and the model turn
    reports the error instead of the fallback. *)
Lemma extraction_stated_fails :
  ~ extraction_stated (E := scenario_engine) None empty_body (typing "hi")
  /\ ~ extraction_stated (E := scenario_engine) None null_body (typing "hi").
Proof.
  split; intros H; destruct (H _ eq_refl eq_refl) as (p & t & Hs);
    vm_compute in Hs; discriminate Hs.
Qed.

(** C5, as stated, fails when the store rejects the write: no thread is
    created. *)
Lemma default_thread_stated_fails :
  ~ default_thread_stated (E := scenario_engine) None store_denies without_threads.
Proof.
  intros H. destruct (H alice eq_refl) as (i & Hs).
  vm_compute in Hs. discriminate Hs.
Qed.

(** C6, as stated, fails twice over.  When the store rejects the
    deletion the selection stays on the thread that was to be deleted;
    and when the store accepts the deletion of "b", selected among "a",
    "b" and "c", the selection goes to "a", the first of the list, not
    to "c", the next after "b". *)
Lemma reselection_stated_fails :
  ~ reselection_stated (E := scenario_engine) None store_denies on_second_thread (lit "b")
  /\ ~ reselection_stated (E := scenario_engine) None all_well on_middle_thread (lit "b")
  /\ activeChatId
       (ui (run (handleDeleteChat (E := scenario_engine) None (ui on_middle_thread) (lit "b"))
              all_well on_middle_thread).1) = Some (lit "a")
  /\ c_id <$> next_remaining (lit "b") (chats (ui on_middle_thread)) = Some (lit "c").
Proof.
  split; [|split; [|split]].
  - intros (H & _). specialize (H eq_refl).
    vm_compute in H. discriminate H.
  - intros (H & _). specialize (H eq_refl).
    vm_compute in H. discriminate H.
  - vm_compute. reflexivity.
  - vm_compute. reflexivity.
Qed.

(** C9, as stated, fails: with "hello" typed, the write of the user
    message is issued while the page still shows "hello". *)
Lemma cleared_before_write_stated_fails :
  ~ cleared_before_write_stated (E := scenario_engine) None all_well (typing "hello").
Proof.
  intros H. destruct (H eq_refl) as [H1 _].
  specialize (H1 _ _ eq_refl). vm_compute in H1. discriminate H1.
Qed.

Lemma sendMessage_stores_the_prompt_before_asking_witness :
  send_rejected (ui (typing "hi")) = false
  /\ exists init rest,
       (issued_since (typing "hi")
          (run (handleSendMessage (E := scenario_engine) None (ui (typing "hi")))
             all_well (typing "hi")).1).*2
       = ReqAddDoc (messagesCollectionPath None alice (lit "a"))
           (MessageDoc {| text := JStr (lit "hi"); role := role_user;
                          timestamp := 100%N |})
         :: ReqFetch apiUrl init :: rest.
Proof.
  split; [reflexivity|].
  destruct (sendMessage_stores_the_prompt_before_asking (E := scenario_engine) None
              all_well (typing "hi") eq_refl)
    as (u & chatId & Hu & Ha & _ & Hok).
  injection Hu as <-. injection Ha as <-.
  destruct (Hok (lit "doc0") eq_refl) as (init & rest & Hi & _).
  exists init, (rest.*2). rewrite Hi. reflexivity.
Defined.

Lemma sendMessage_only_appends_to_the_thread_witness :
  send_rejected (ui (typing "hi")) = false
  /\ exists added,
       store (run (handleSendMessage (E := scenario_engine) None (ui (typing "hi")))
                store_denies (typing "hi")).1 = store (typing "hi") ++ added
       /\ length added <= 2.
Proof.
  split; [reflexivity|].
  destruct (sendMessage_only_appends_to_the_thread (E := scenario_engine) None
              store_denies (typing "hi") eq_refl)
    as (u & chatId & added & _ & _ & Hs & Hlen & _).
  exists added. exact (conj Hs Hlen).
Defined.

Lemma sendMessage_reports_what_the_try_block_throws_witness :
  send_rejected (ui (typing "hi")) = false
  /\ store (run (handleSendMessage (E := scenario_engine) None (ui (typing "hi")))
              network_down (typing "hi")).1
     = [(lit "/artifacts/t3-chat-clone/users/alice/chats/a/messages/doc0",
         MessageDoc {| text := JStr (lit "hi"); role := role_user;
                       timestamp := 100%N |});
        (lit "/artifacts/t3-chat-clone/users/alice/chats/a/messages/doc1",
         MessageDoc {| text := JStr (lit "Error: Failed to fetch");
                       role := role_model; timestamp := 101%N |})].
Proof.
  split; [reflexivity|].
  destruct (sendMessage_reports_what_the_try_block_throws (E := scenario_engine) None
              network_down (typing "hi") (ErrorObj (lit "Failed to fetch"))
              (lit "doc0") (lit "doc1") eq_refl eq_refl eq_refl (or_introl eq_refl))
    as (u & chatId & Hu & Ha & _ & Hs).
  injection Hu as <-. injection Ha as <-. exact Hs.
Defined.

Lemma sendMessage_reports_a_rejected_reply_witness :
  send_rejected (ui (typing "hi")) = false
  /\ modelResponse_of (E := scenario_engine) hello_body = inr (JStr (lit "Hello"))
  /\ store (run (handleSendMessage (E := scenario_engine) None (ui (typing "hi")))
              reply_denied (typing "hi")).1
     = [(lit "/artifacts/t3-chat-clone/users/alice/chats/a/messages/doc0",
         MessageDoc {| text := JStr (lit "hi"); role := role_user;
                       timestamp := 100%N |});
        (lit "/artifacts/t3-chat-clone/users/alice/chats/a/messages/doc2",
         MessageDoc {| text := JStr (lit "Error: permission-denied");
                       role := role_model; timestamp := 102%N |})].
Proof.
  split; [reflexivity|]. split; [reflexivity|].
  destruct (sendMessage_reports_a_rejected_reply (E := scenario_engine) None
              reply_denied (typing "hi") {| status := 200; json := inr hello_body |}
              hello_body (JStr (lit "Hello")) denied (lit "doc0") (lit "doc2")
              eq_refl eq_refl eq_refl eq_refl eq_refl eq_refl eq_refl eq_refl)
    as (u & chatId & Hu & Ha & _ & Hs).
  injection Hu as <-. injection Ha as <-. exact Hs.
Defined.

Lemma extraction_yields_undefined_without_text_witness :
  modelResponse_of (E := scenario_engine)
    (JObj [(lit "candidates",
            JArr [JObj [(lit "content",
                         JObj [(lit "parts", JArr [JObj [(lit "thought", JBool true)]])])]])])
  = inr JUndefined.
Proof.
  set (part := [(lit "thought", JBool true)]).
  set (content_ := [(lit "parts", JArr [JObj part])]).
  set (candidate := [(lit "content", JObj content_)]).
  exact (extraction_yields_undefined_without_text (E := scenario_engine)
           [(lit "candidates", JArr [JObj candidate])] candidate content_ part [] []
           eq_refl eq_refl eq_refl eq_refl).
Defined.

Lemma createThread_always_fulfils_witness :
  user (ui without_threads) = Some alice
  /\ (run (handleNewChat None (ui without_threads)) store_denies without_threads).2
     = inr tt
  /\ isLoading
       (ui (run (handleNewChat None (ui without_threads)) store_denies
              without_threads).1) = false.
Proof.
  split; [reflexivity|].
  destruct (createThread_always_fulfils None store_denies without_threads alice eq_refl)
    as (Hr & Hl & _).
  exact (conj Hr Hl).
Defined.

Lemma deleteThread_leaves_the_messages_behind_witness :
  user (ui with_history) = Some alice
  /\ deleteDoc_settles all_well (deletes with_history) = inr tt
  /\ (doc_path (messagesCollectionPath None alice (lit "b")) (lit "m1"),
      MessageDoc {| text := JStr (lit "hi"); role := role_user; timestamp := 5%N |})
     ∈ store (run (handleDeleteChat (E := scenario_engine) None (ui with_history)
                     (lit "b")) all_well with_history).1.
Proof.
  split; [reflexivity|]. split; [reflexivity|].
  apply (proj2 (proj2 (deleteThread_leaves_the_messages_behind (E := scenario_engine)
                         None all_well with_history alice (lit "b") eq_refl eq_refl))).
  right. left.
Defined.

Lemma deleteThread_always_fulfils_witness :
  user (ui on_second_thread) = Some alice
  /\ (run (handleDeleteChat (E := scenario_engine) None (ui on_second_thread) (lit "b"))
        store_denies on_second_thread).2 = inr tt.
Proof.
  split; [reflexivity|].
  exact (proj1 (deleteThread_always_fulfils (E := scenario_engine) None store_denies
                  on_second_thread alice (lit "b") eq_refl)).
Defined.

Lemma deleteThread_never_keeps_the_deleted_selected_witness :
  user (ui on_second_thread) = Some alice
  /\ activeChatId (ui on_second_thread) = Some (lit "b")
  /\ activeChatId
       (ui (run (handleDeleteChat (E := scenario_engine) None (ui on_second_thread)
                   (lit "b")) all_well on_second_thread).1) <> Some (lit "b").
Proof.
  split; [reflexivity|]. split; [reflexivity|].
  exact (proj1 (deleteThread_never_keeps_the_deleted_selected (E := scenario_engine)
                  None all_well on_second_thread alice (lit "b")
                  eq_refl eq_refl eq_refl)).
Defined.

Lemma handlers_stay_in_the_identitys_partition_witness :
  user (ui (typing "hi")) = Some alice
  /\ Forall (fun o => forall path, store_path o.2 = Some path ->
                        chatsCollectionPath None alice `prefix_of` path)
       (issued_since (typing "hi")
          (run (handleSendMessage (E := scenario_engine) None (ui (typing "hi")))
             all_well (typing "hi")).1).
Proof.
  split; [reflexivity|].
  exact (proj2 (proj2 (proj2 (handlers_stay_in_the_identitys_partition
                                (E := scenario_engine) None all_well (typing "hi")
                                alice (lit "a") [] eq_refl)))).
Defined.

Lemma reading_first_reachable : reachable None reading_first.
Proof. apply reach_dispatch, reach_auth, reach_mounted. Qed.

Lemma message_subscription_follows_the_selection_witness :
  reachable None reading_first
  /\ exists h,
       message_listeners reading_first
       = [(h, lit "/artifacts/t3-chat-clone/users/alice/chats/a/messages")].
Proof.
  split; [exact reading_first_reachable|].
  destruct (proj1 (message_subscription_follows_the_selection None reading_first
                     reading_first_reachable) alice (lit "a") eq_refl eq_refl)
    as (h & Hl & _).
  - vm_compute. discriminate.
  - exists h. exact Hl.
Defined.

Lemma chat_list_subscription_follows_the_identity_witness :
  reachable None reading_first
  /\ exists h,
       chat_listeners reading_first
       = [(h, lit "/artifacts/t3-chat-clone/users/alice/chats")].
Proof.
  split; [exact reading_first_reachable|].
  destruct (proj1 (chat_list_subscription_follows_the_identity None reading_first
                     reading_first_reachable) alice eq_refl eq_refl)
    as (h & Hl & _).
  exists h. exact Hl.
Defined.

Lemma nothing_is_attached_without_identity_witness :
  reachable None early_click
  /\ activeChatId (ui (world early_click)) = Some (lit "a")
  /\ listeners early_click = [].
Proof.
  assert (Hr : reachable None early_click) by apply reach_dispatch, reach_mounted.
  split; [exact Hr|]. split; [reflexivity|].
  exact (nothing_is_attached_without_identity None early_click Hr eq_refl).
Defined.

Lemma selection_change_resubscribes_the_chat_list_witness :
  reachable None reading_first
  /\ chats_cleanup reading_first = Some 1
  /\ let r' := dispatch None (selectChat (lit "b")) all_well reading_first in
     activeChatId (ui (world r')) <> activeChatId (ui (world reading_first))
     /\ attached 1 (listeners r') = None
     /\ chats_cleanup r' = Some 3.
Proof.
  split; [exact reading_first_reachable|]. split; [reflexivity|].
  assert (Hsel : activeChatId
                   (ui (world (dispatch None (selectChat (lit "b")) all_well
                                 reading_first)))
                 <> activeChatId (ui (world reading_first))).
  { vm_compute. discriminate. }
  split; [exact Hsel|]. split; [|reflexivity].
  exact (proj1 (selection_change_resubscribes_the_chat_list None
                  (selectChat (lit "b")) all_well reading_first
                  reading_first_reachable Hsel 1 eq_refl)).
Defined.
